(** * Portfolio backend: a model of [portfolio-docker/main.go]

    The file embeds the HTTP handlers of the backend (registration, login,
    the bearer-token middleware, photo upload, listing and deletion) as
    functions over an explicit server state, and proves the properties the
    specification states about them.

    Conventions of the model.
    - A request is handled at one instant: every [time.Now()] of one request
      reads the same clock value, held in the state.
    - The relational store is the [users] table in memory, the photo store is
      the directory tree under [photos/].  Store and filesystem calls fail
      only for the reasons the model can see (no row, a violated [UNIQUE]
      column, a missing directory or file); each handler keeps the error
      branch the source has.
    - Every store or filesystem call appends an entry to [trace], so that an
      unchanged state also means that no such call was issued.
    - JSON numbers are integers ([float64] holds every integer below 2^53
      exactly; identifiers and Unix times are of that kind).
    - [golang-jwt/jwt/v5], [x/crypto/bcrypt], [os], [path/filepath],
      [strings], [encoding/hex] and [time] are libraries the program imports;
      the parts the handlers call are modelled after their documented
      behaviour, under the name the source calls them by. *)

From Stdlib Require Import ZArith String Ascii List Bool Lia.
From stdpp Require Import gmap strings list fin_maps sorting.

Open Scope Z_scope.

(** A Go result pair [(value, err)]: either the value or the error text. *)
Inductive Res (A : Type) :=
| Ok (a : A)
| Err (e : string).
Arguments Ok {A} a.
Arguments Err {A} e.

(* ===================================================================== *)
(** * Go strings: [strings], [path/filepath], [encoding/hex]              *)
(* ===================================================================== *)

Abbreviation chars := list_ascii_of_string.
Abbreviation of_chars := string_of_list_ascii.

(** [strings.HasPrefix]: [len(s) >= len(prefix) && s[:len(prefix)] == prefix]. *)
Fixpoint HasPrefix {A} `{EqDecision A} (s prefix : list A) {struct prefix}
  : bool :=
  match prefix with
  | [] => true
  | p :: prefix' =>
      match s with
      | [] => false
      | c :: s' => bool_decide (c = p) && HasPrefix s' prefix'
      end
  end.

(** [strings.TrimPrefix]: [s] without the leading [prefix], or [s] itself. *)
Definition TrimPrefix {A} `{EqDecision A} (s prefix : list A) : list A :=
  if HasPrefix s prefix then drop (length prefix) s else s.

(** [strings.HasSuffix]. *)
Definition HasSuffix {A} `{EqDecision A} (s suffix : list A) : bool :=
  bool_decide (length suffix <= length s)%nat
  && bool_decide (drop (length s - length suffix) s = suffix).

(** [strings.TrimSuffix]: [s] without the trailing [suffix], or [s] itself. *)
Definition TrimSuffix {A} `{EqDecision A} (s suffix : list A) : list A :=
  if HasSuffix s suffix then take (length s - length suffix) s else s.

Definition strings_HasPrefix (s prefix : string) : bool :=
  HasPrefix (chars s) (chars prefix).

Definition strings_TrimSuffix (s suffix : string) : string :=
  of_chars (TrimSuffix (chars s) (chars suffix)).

Definition IsPathSeparator (c : ascii) : bool := bool_decide (c = "/"%char).

(** The loop of [filepath.Ext], which walks the path from its last byte
    towards the first: [rpath] is what is still to be visited (in reverse),
    [seen] the bytes already passed. *)
Fixpoint Ext_loop (rpath seen : list ascii) : list ascii :=
  match rpath with
  | [] => []
  | c :: rpath' =>
      if IsPathSeparator c then []
      else if bool_decide (c = "."%char) then c :: seen
      else Ext_loop rpath' (c :: seen)
  end.

(** [filepath.Ext]: the suffix beginning at the final dot in the final
    element of [path]; empty if there is no dot. *)
Definition filepath_Ext (path : string) : string :=
  of_chars (Ext_loop (rev (chars path)) []).

(** [filepath.Join] of two clean, non-empty elements. *)
Definition filepath_Join (dir name : string) : string :=
  dir +:+ "/" +:+ name.

(** The loop that splits a path at its last separator. *)
Fixpoint Split_loop (rpath seen : list ascii) : list ascii * list ascii :=
  match rpath with
  | [] => ([], seen)
  | c :: rpath' =>
      if IsPathSeparator c then (rev rpath', seen)
      else Split_loop rpath' (c :: seen)
  end.

(** Directory and last element of a path ([filepath.Dir], [filepath.Base]). *)
Definition path_split (path : string) : string * string :=
  let '(d, b) := Split_loop (rev (chars path)) [] in (of_chars d, of_chars b).

Definition hextable : string := "0123456789abcdef".

Definition hex_digit (n : N) : ascii :=
  default "0"%char (String.get (N.to_nat n) hextable).

(** [hex.EncodeToString]: two digits per byte, [hextable[v>>4]] then
    [hextable[v&0x0f]]. *)
Definition hex_EncodeToString (src : list Byte.byte) : string :=
  of_chars
    (flat_map (fun v => [hex_digit (N.shiftr (Byte.to_N v) 4);
                         hex_digit (N.land (Byte.to_N v) 15)]) src).

(** Decimal digits of a number, padded with zeros to [width] digits
    ([%02d] and [%04d] of the layout strings of [time]). *)
Fixpoint pad_digits (width : nat) (n : Z) (acc : list ascii) : list ascii :=
  match width with
  | O => acc
  | S width' =>
      pad_digits width' (n / 10)
        (ascii_of_N (48 + Z.to_N (n mod 10)) :: acc)
  end.

Definition zero_padded (width : nat) (n : Z) : string :=
  of_chars (pad_digits width n []).

(* ===================================================================== *)
(** * [time]                                                              *)
(* ===================================================================== *)

(** An instant: nanoseconds since the Unix epoch, as [time.Time] counts. *)
Definition Time := Z.

Definition time_Second : Z := 1000000000.
Definition time_Hour : Z := 3600 * time_Second.

(** [t.Add(d)]. *)
Definition time_Add (t : Time) (d : Z) : Time := t + d.

(** [t.Unix()]: whole seconds since the epoch, the fraction dropped. *)
Definition time_Unix (t : Time) : Z := t / time_Second.

(** [time.Unix(sec, 0)]. *)
Definition time_of_Unix (sec : Z) : Time := sec * time_Second.

(** [t.Before(u)]. *)
Definition time_Before (t u : Time) : bool := bool_decide (t < u).

(** Year, month and day of a day number counted from 1970-01-01
    (proleptic Gregorian calendar). *)
Definition civil_of_days (days : Z) : Z * Z * Z :=
  let z := days + 719468 in
  let era := z / 146097 in
  let doe := z - era * 146097 in
  let yoe := (doe - doe / 1460 + doe / 36524 - doe / 146096) / 365 in
  let doy := doe - (365 * yoe + yoe / 4 - yoe / 100) in
  let mp := (5 * doy + 2) / 153 in
  let d := doy - (153 * mp + 2) / 5 + 1 in
  let m := if bool_decide (mp < 10) then mp + 3 else mp - 9 in
  let y := yoe + era * 400 + (if bool_decide (m <= 2) then 1 else 0) in
  (y, m, d).

(** [t.Format(time.RFC3339)] for a server whose location is UTC (the
    container image sets no time zone): [2006-01-02T15:04:05Z]. *)
Definition Format_RFC3339 (t : Time) : string :=
  let sec := time_Unix t in
  let '(y, m, d) := civil_of_days (sec / 86400) in
  let tod := sec mod 86400 in
  zero_padded 4 y +:+ "-" +:+ zero_padded 2 m +:+ "-" +:+ zero_padded 2 d
  +:+ "T" +:+ zero_padded 2 (tod / 3600) +:+ ":"
  +:+ zero_padded 2 (tod mod 3600 / 60) +:+ ":"
  +:+ zero_padded 2 (tod mod 60) +:+ "Z".

(* ===================================================================== *)
(** * [golang.org/x/crypto/bcrypt]                                        *)
(* ===================================================================== *)

Definition bcrypt_DefaultCost : Z := 10.

(** The two calls the handlers make.  [GenerateFromPassword] draws its salt
    from [crypto/rand] and may return an error; a hash it returned compares
    equal to the password it was made from. *)
Class Bcrypt := {
  GenerateFromPassword :
    list Byte.byte -> string -> Z -> Res string;
  CompareHashAndPassword : string -> string -> bool;
  Compare_Generate : forall salt password cost hashed,
    GenerateFromPassword salt password cost = Ok hashed ->
    CompareHashAndPassword hashed password = true
}.

(* ===================================================================== *)
(** * [github.com/golang-jwt/jwt/v5]                                      *)
(* ===================================================================== *)

(** A decoded JSON value of a claim. *)
Inductive JSON :=
| JNull
| JBool (b : bool)
| JNumber (n : Z)
| JString (s : string).

(** The signature segment of a token, by what it verifies against:
    [HMACOf alg key] is the MAC of the token's own signing input (its header
    and claims) under [key] with the hash of [alg]; every other byte string
    is [OtherBytes]. *)
Inductive Signature :=
| HMACOf (alg : string) (key : string)
| OtherBytes (raw : string).

(** The three segments of a compact token. *)
Record JWS := {
  jws_alg : string;
  jws_claims : gmap string JSON;
  jws_sig : Signature
}.

Global Instance JSON_eq_dec : EqDecision JSON.
Proof. solve_decision. Defined.
Global Instance Signature_eq_dec : EqDecision Signature.
Proof. solve_decision. Defined.
Global Instance JWS_eq_dec : EqDecision JWS.
Proof. solve_decision. Defined.

(** The bytes of a header value or a token string.  [Tok t] stands for the
    characters of the compact serialisation of [t]; text that decodes to no
    token is made of [Ch] symbols only. *)
Inductive Symbol :=
| Ch (c : ascii)
| Tok (t : JWS).

Global Instance Symbol_eq_dec : EqDecision Symbol.
Proof. solve_decision. Defined.

Definition wire := list Symbol.

Definition text (s : string) : wire := Ch <$> chars s.

Inductive SigningMethod :=
| SigningMethodHMAC (name : string)
| SigningMethodRSA (name : string)
| SigningMethodRSAPSS (name : string)
| SigningMethodECDSA (name : string)
| SigningMethodEd25519
| SigningMethodNone.

(** [jwt.GetSigningMethod]: the methods the library registers. *)
Definition jwt_GetSigningMethod (alg : string) : option SigningMethod :=
  if bool_decide (alg ∈ ["HS256"; "HS384"; "HS512"]) then
    Some (SigningMethodHMAC alg)
  else if bool_decide (alg ∈ ["RS256"; "RS384"; "RS512"]) then
    Some (SigningMethodRSA alg)
  else if bool_decide (alg ∈ ["PS256"; "PS384"; "PS512"]) then
    Some (SigningMethodRSAPSS alg)
  else if bool_decide (alg ∈ ["ES256"; "ES384"; "ES512"]) then
    Some (SigningMethodECDSA alg)
  else if bool_decide (alg = "EdDSA") then Some SigningMethodEd25519
  else if bool_decide (alg = "none") then Some SigningMethodNone
  else None.

(** [jwt.Token] as the key function and the caller see it. *)
Record Token := {
  Method : SigningMethod;
  Claims : gmap string JSON;
  Valid : bool
}.

(** [Method.Verify] with a [[]byte] key: only an HMAC method accepts such a
    key, and it recomputes the MAC and compares. *)
Definition jwt_Verify (m : SigningMethod) (key : string) (sig : Signature)
  : bool :=
  match m with
  | SigningMethodHMAC name => bool_decide (sig = HMACOf name key)
  | _ => false
  end.

(** [MapClaims.parseNumericDate]: a missing claim and the number 0 give no
    date, a number gives that many seconds, anything else is an error. *)
Definition parseNumericDate (claims : gmap string JSON) (key : string)
  : option (option Time) :=
  match claims !! key with
  | None => Some None
  | Some (JNumber n) =>
      if bool_decide (n = 0) then Some None else Some (Some (time_of_Unix n))
  | Some _ => None
  end.

(** The default [Validator.Validate]: [exp] and [nbf] are checked when
    present, with no leeway; nothing else is. *)
Definition jwt_Validate (claims : gmap string JSON) (now : Time)
  : option string :=
  let exp_err :=
    match parseNumericDate claims "exp" with
    | None => Some "exp is invalid"
    | Some None => None
    | Some (Some exp) =>
        if time_Before now exp then None else Some "token is expired"
    end in
  let nbf_err :=
    match parseNumericDate claims "nbf" with
    | None => Some "nbf is invalid"
    | Some None => None
    | Some (Some nbf) =>
        if negb (time_Before now nbf) then None
        else Some "token is not valid yet"
    end in
  match exp_err with
  | Some e => Some e
  | None => nbf_err
  end.

(** [jwt.Parse(tokenString, keyFunc)] at clock reading [now]: decode the
    segments, look the method up, ask [keyFunc] for the key, verify the
    signature, validate the claims. *)
Definition jwt_Parse (now : Time) (tokenString : wire)
    (keyFunc : Token -> Res string) : Res Token :=
  match tokenString with
  | [Tok raw] =>
      match jwt_GetSigningMethod (jws_alg raw) with
      | None => Err "signing method (alg) is unavailable"
      | Some method =>
          let token :=
            {| Method := method; Claims := jws_claims raw; Valid := false |} in
          match keyFunc token with
          | Err e => Err "error while executing keyfunc"
          | Ok key =>
              if negb (jwt_Verify method key (jws_sig raw)) then
                Err "signature is invalid"
              else
                match jwt_Validate (jws_claims raw) now with
                | Some e => Err e
                | None =>
                    Ok {| Method := method; Claims := jws_claims raw;
                           Valid := true |}
                end
          end
      end
  | _ => Err "token is malformed"
  end.

(** [jwt.New(jwt.SigningMethodHS256)] with [claims], then
    [token.SignedString(key)]. *)
Definition jwt_SignedString (claims : gmap string JSON) (key : string)
  : Res wire :=
  Ok [Tok {| jws_alg := "HS256"; jws_claims := claims;
              jws_sig := HMACOf "HS256" key |}].

(* ===================================================================== *)
(** * Wire structures of [main.go]                                        *)
(* ===================================================================== *)

(** [UserResponse]. *)
Record UserResponse := {
  ur_ID : Z;
  ur_Name : string;
  ur_Email : string
}.

(** [PhotoResponse]. *)
Record PhotoResponse := {
  photo_ID : string;
  photo_Filename : string;
  photo_Title : string;
  photo_Category : string;
  photo_URL : string;
  photo_UploadDate : string
}.

(** The [Data interface{}] field of [Response]: absent, one photo record
    (upload) or a list of them (listing). *)
Inductive Payload :=
| NoData
| OnePhoto (p : PhotoResponse)
| Photos (ps : list PhotoResponse).

(** [Response], the envelope of every reply. *)
Record Response := {
  Success : bool;
  Message : string;
  Token_ : wire;
  User_ : option UserResponse;
  Data : Payload
}.

(** [Credentials]. *)
Record Credentials := {
  creds_Name : string;
  creds_Email : string;
  creds_Password : string
}.

(** [multipart.FileHeader] together with the bytes of the part. *)
Record FileHeader := {
  fh_Filename : string;
  fh_Header : gmap string string;
  fh_Content : list Byte.byte
}.

(** [multipart.Form]: the text fields and the file parts. *)
Record Form := {
  form_Value : gmap string string;
  form_File : gmap string FileHeader
}.

(** A request body, by what its decoders make of it. *)
Inductive Body :=
| NoBody
| JSONBody (c : Credentials)
| MultipartBody (f : Form)
| Undecodable (raw : string).

(** [http.Request] as far as the handlers read it; [Context_userID] is the
    value stored under the key ["userID"] of the request context. *)
Record Request := {
  Header_Authorization : wire;
  Body_ : Body;
  Vars : gmap string string;
  Host : string;
  TLS : bool;
  Context_userID : option Z
}.

Definition WithContext_userID (r : Request) (userID : Z) : Request :=
  {| Header_Authorization := Header_Authorization r; Body_ := Body_ r;
     Vars := Vars r; Host := Host r; TLS := TLS r;
     Context_userID := Some userID |}.

Definition StatusOK : Z := 200.
Definition StatusCreated : Z := 201.
Definition StatusBadRequest : Z := 400.
Definition StatusUnauthorized : Z := 401.
Definition StatusNotFound : Z := 404.
Definition StatusConflict : Z := 409.
Definition StatusInternalServerError : Z := 500.

(** What a handler leaves behind: the status and envelope it wrote, or a
    panic ([net/http] recovers it and drops the connection). *)
Inductive Outcome :=
| Responded (code : Z) (payload : Response)
| Panicked (reason : string).

(* ===================================================================== *)
(** * Server state: the [users] table and the [photos] tree               *)
(* ===================================================================== *)

(** A row of [users]. *)
Record User := {
  user_ID : Z;
  user_Name : string;
  user_Email : string;
  user_Password : string;
  user_CreatedAt : Time
}.

(** A directory entry: a regular file with its bytes, or a subdirectory. *)
Record File := {
  IsDir : bool;
  ModTime : Time;
  Bytes : list Byte.byte
}.

(** A store or filesystem call, as recorded in the trace. *)
Inductive Call :=
| SQL (query : string) (arg : string)
| FS (op : string) (path : string).

Record World := {
  now : Time;
  entropy : nat -> Byte.byte;
  entropy_pos : nat;
  users : list User;
  users_seq : Z;
  fs : gmap string (gmap string File);
  stdout : list string;
  trace : list Call
}.

Definition set_entropy_pos (p : nat) (w : World) : World :=
  {| now := now w; entropy := entropy w; entropy_pos := p; users := users w;
     users_seq := users_seq w; fs := fs w; stdout := stdout w;
     trace := trace w |}.

Definition set_users (us : list User) (seq : Z) (w : World) : World :=
  {| now := now w; entropy := entropy w; entropy_pos := entropy_pos w;
     users := us; users_seq := seq; fs := fs w; stdout := stdout w;
     trace := trace w |}.

Definition set_fs (t : gmap string (gmap string File)) (w : World) : World :=
  {| now := now w; entropy := entropy w; entropy_pos := entropy_pos w;
     users := users w; users_seq := users_seq w; fs := t; stdout := stdout w;
     trace := trace w |}.

Definition set_stdout (out : list string) (w : World) : World :=
  {| now := now w; entropy := entropy w; entropy_pos := entropy_pos w;
     users := users w; users_seq := users_seq w; fs := fs w; stdout := out;
     trace := trace w |}.

Definition log_call (c : Call) (w : World) : World :=
  {| now := now w; entropy := entropy w; entropy_pos := entropy_pos w;
     users := users w; users_seq := users_seq w; fs := fs w;
     stdout := stdout w; trace := trace w ++ [c] |}.

(** The same server at a later (or any other) clock reading. *)
Definition at_time (t : Time) (w : World) : World :=
  {| now := t; entropy := entropy w; entropy_pos := entropy_pos w;
     users := users w; users_seq := users_seq w; fs := fs w;
     stdout := stdout w; trace := trace w |}.

(* ===================================================================== *)
(** * Handler code as state passing with early exit                       *)
(* ===================================================================== *)

(** One statement either goes on with a value or has ended the handler
    ([respondWith...; return], or a panic). *)
Inductive Step (A : Type) :=
| Next (a : A)
| Done (o : Outcome).
Arguments Next {A} a.
Arguments Done {A} o.

Definition Go (A : Type) : Type := World -> Step A * World.

Definition ret {A} (a : A) : Go A := fun w => (Next a, w).

Definition bind {A B} (m : Go A) (k : A -> Go B) : Go B :=
  fun w =>
    match m w with
    | (Next a, w') => k a w'
    | (Done o, w') => (Done o, w')
    end.

Declare Scope go_scope.
Delimit Scope go_scope with go.
Notation "x <- m ;; k" := (bind m (fun x => k))
  (at level 100, m at next level, right associativity) : go_scope.
Notation "m ;;; k" := (bind m (fun _ => k))
  (at level 100, right associativity) : go_scope.
Open Scope go_scope.

Definition Handler : Type := Request -> World -> Outcome * World.

(** A handler body never falls off its end: its last statement responds. *)
Definition serve (body : Go Empty_set) : World -> Outcome * World :=
  fun w =>
    match body w with
    | (Done o, w') => (o, w')
    | (Next e, _) => match e with end
    end.

(** [next(w, r)]: run a wrapped handler as the last statement. *)
Definition call {A} (h : World -> Outcome * World) : Go A :=
  fun w => let '(o, w') := h w in (Done o, w').

Definition panic {A} (reason : string) : Go A :=
  fun w => (Done (Panicked reason), w).

(** [if err != nil { ...; return }] around a result already at hand. *)
Definition on_err {A} (r : Res A) (h : string -> Go A) : Go A :=
  match r with
  | Ok a => ret a
  | Err e => h e
  end.

(** The same around a call. *)
Definition call_or {A} (m : Go (Res A)) (h : string -> Go A) : Go A :=
  r <- m ;; on_err r h.

(** [if cond { ...; return }]. *)
Definition when_ (cond : bool) (m : Go unit) : Go unit :=
  if cond then m else ret tt.

(** [respondWithJSON]: marshalling a [Response] cannot fail. *)
Definition respondWithJSON {A} (code : Z) (payload : Response) : Go A :=
  fun w => (Done (Responded code payload), w).

(** The envelope of [respondWithError]. *)
Definition failure (message : string) : Response :=
  {| Success := false; Message := message; Token_ := []; User_ := None;
     Data := NoData |}.

(** [respondWithError]. *)
Definition respondWithError {A} (code : Z) (message : string) : Go A :=
  respondWithJSON code (failure message).

(** [time.Now()]. *)
Definition time_Now : Go Time := fun w => (Next (now w), w).

(** [rand.Read(bytes)] from [crypto/rand] into a buffer of [n] bytes. *)
Definition rand_Read (n : nat) : Go (list Byte.byte) :=
  fun w =>
    (Next (map (entropy w) (seq (entropy_pos w) n)),
     set_entropy_pos (entropy_pos w + n)%nat w).

(** [fmt.Println] of one line. *)
Definition fmt_Println (line : string) : Go unit :=
  fun w => (Next tt, set_stdout (stdout w ++ [line]) w).

(* --------------------------------------------------------------------- *)
(** ** The generated queries ([db/sqlc])                                  *)
(* --------------------------------------------------------------------- *)

(** [SELECT EXISTS(SELECT 1 FROM users WHERE email = ?)]. *)
Definition CheckEmailExists (email : string) : Go (Res Z) :=
  fun w =>
    (Next (Ok (if existsb (fun u => bool_decide (user_Email u = email))
                          (users w) then 1 else 0)),
     log_call (SQL "CheckEmailExists" email) w).

(** [AUTOINCREMENT]: one more than the largest rowid the table ever had. *)
Definition next_rowid (w : World) : Z :=
  1 + fold_right Z.max (users_seq w) (map user_ID (users w)).

(** [INSERT INTO users (name, email, password) VALUES (?, ?, ?) RETURNING
    ...]; the [email] column is [UNIQUE]. *)
Definition CreateUser (name email password : string) : Go (Res User) :=
  fun w =>
    let w1 := log_call (SQL "CreateUser" email) w in
    if existsb (fun u => bool_decide (user_Email u = email)) (users w) then
      (Next (Err "UNIQUE constraint failed: users.email"), w1)
    else
      let row := {| user_ID := next_rowid w; user_Name := name;
                    user_Email := email; user_Password := password;
                    user_CreatedAt := now w |} in
      (Next (Ok row), set_users (users w ++ [row]) (user_ID row) w1).

(** [SELECT id, name, email, password FROM users WHERE email = ? LIMIT 1]. *)
Definition GetUserByEmail (email : string) : Go (Res User) :=
  fun w =>
    (Next (match find (fun u => bool_decide (user_Email u = email)) (users w)
           with
           | Some u => Ok u
           | None => Err "sql: no rows in result set"
           end),
     log_call (SQL "GetUserByEmail" email) w).

(** [SELECT id, name, email FROM users WHERE id = ? LIMIT 1]. *)
Definition GetUserByID (id : Z) : Go (Res User) :=
  fun w =>
    (Next (match find (fun u => bool_decide (user_ID u = id)) (users w) with
           | Some u => Ok u
           | None => Err "sql: no rows in result set"
           end),
     log_call (SQL "GetUserByID" "") w).

(* --------------------------------------------------------------------- *)
(** ** [os] and [io]                                                      *)
(* --------------------------------------------------------------------- *)

(** [os.DirEntry]: the name and what [Info()] reports. *)
Definition DirEntry : Type := string * File.

Definition entry_le (a b : DirEntry) : Prop := String.le a.1 b.1.

Global Instance entry_le_dec : RelDecision entry_le.
Proof. intros a b. unfold entry_le. apply _. Defined.

(** [file.Info()]. *)
Definition DirEntry_Info (e : DirEntry) : Res File := Ok e.2.

(** [os.ReadDir(name)]: all entries of the directory, sorted by filename. *)
Definition os_ReadDir (name : string) : Go (Res (list DirEntry)) :=
  fun w =>
    (Next (match fs w !! name with
           | Some d => Ok (merge_sort entry_le (map_to_list d))
           | None => Err "no such file or directory"
           end),
     log_call (FS "ReadDir" name) w).

(** [os.Create(name)]: create the file, or truncate it if it exists. *)
Definition os_Create (name : string) : Go (Res string) :=
  fun w =>
    let w1 := log_call (FS "Create" name) w in
    let '(dir, base) := path_split name in
    match fs w !! dir with
    | None => (Next (Err "no such file or directory"), w1)
    | Some d =>
        if bool_decide (base = "") || from_option IsDir false (d !! base) then
          (Next (Err "is a directory"), w1)
        else
          let f := {| IsDir := false; ModTime := now w; Bytes := [] |} in
          (Next (Ok name), set_fs (<[dir := <[base := f]> d]> (fs w)) w1)
    end.

(** [io.Copy(dest, src)] onto a file opened by [os_Create]. *)
Definition io_Copy (dest : string) (src : list Byte.byte) : Go (Res Z) :=
  fun w =>
    let w1 := log_call (FS "Write" dest) w in
    let '(dir, base) := path_split dest in
    match fs w !! dir with
    | None => (Next (Err "file already closed"), w1)
    | Some d =>
        match d !! base with
        | None => (Next (Err "file already closed"), w1)
        | Some f0 =>
            let f := {| IsDir := IsDir f0; ModTime := now w;
                        Bytes := Bytes f0 ++ src |} in
            (Next (Ok (Z.of_nat (length src))),
             set_fs (<[dir := <[base := f]> d]> (fs w)) w1)
        end
    end.

(** [os.Remove(name)] of a regular file (the model does not track what a
    subdirectory holds, so removing one is refused). *)
Definition os_Remove (name : string) : Go (Res unit) :=
  fun w =>
    let w1 := log_call (FS "Remove" name) w in
    let '(dir, base) := path_split name in
    match fs w !! dir with
    | None => (Next (Err "no such file or directory"), w1)
    | Some d =>
        match d !! base with
        | None => (Next (Err "no such file or directory"), w1)
        | Some f =>
            if IsDir f then (Next (Err "directory not empty"), w1)
            else (Next (Ok tt), set_fs (<[dir := delete base d]> (fs w)) w1)
        end
    end.

(* ===================================================================== *)
(** * The handlers of [main.go]                                           *)
(* ===================================================================== *)

(** Both photo handlers declare the same [validCategories] map. *)
Definition validCategories : gmap string bool :=
  <["featured" := true]>
    (<["digital-sketches" := true]>
       (<["notebook-sketches" := true]> (<["photography" := true]> ∅))).

(** The [categories] slice of [deletePhotoHandler]. *)
Definition categories : list string :=
  ["featured"; "digital-sketches"; "notebook-sketches"; "photography"].

(** [json.NewDecoder(r.Body).Decode(&creds)]. *)
Definition json_Decode (b : Body) : Res Credentials :=
  match b with
  | JSONBody c => Ok c
  | NoBody => Err "EOF"
  | _ => Err "invalid character"
  end.

(** [r.ParseMultipartForm(10 << 20)]. *)
Definition ParseMultipartForm (b : Body) : Res Form :=
  match b with
  | MultipartBody f => Ok f
  | _ => Err "request Content-Type isn't multipart/form-data"
  end.

(** [r.FormValue(key)]. *)
Definition FormValue (f : Form) (key : string) : string :=
  default "" (form_Value f !! key).

(** [r.FormFile(key)]. *)
Definition FormFile (f : Form) (key : string) : Res FileHeader :=
  match form_File f !! key with
  | Some h => Ok h
  | None => Err "http: no such file"
  end.

(** [handler.Header.Get(key)]. *)
Definition Header_Get (h : FileHeader) (key : string) : string :=
  default "" (fh_Header h !! key).

(** [generateID]: sixteen random bytes, hex-encoded. *)
Definition generateID : Go string :=
  bytes <- rand_Read 16 ;;
  ret (hex_EncodeToString bytes).

(** The URL both photo handlers build with
    [fmt.Sprintf("%s://%s/photos/%s/%s", scheme, host, category, filename)]. *)
Definition photoURL (r : Request) (category filename : string) : string :=
  let host := Host r in
  let scheme := if TLS r then "https" else "http" in
  scheme +:+ "://" +:+ host +:+ "/photos/" +:+ category +:+ "/" +:+ filename.

(** The loop of [getPhotosByCategoryHandler] over the directory entries. *)
Fixpoint photos_loop (r : Request) (category : string)
    (files : list DirEntry) (photos : list PhotoResponse)
  : list PhotoResponse :=
  match files with
  | [] => photos
  | file :: files' =>
      if IsDir file.2 then photos_loop r category files' photos
      else
        match DirEntry_Info file with
        | Err _ => photos_loop r category files' photos
        | Ok fileInfo =>
            let filename := file.1 in
            let fileExt := filepath_Ext filename in
            let photoID := strings_TrimSuffix filename fileExt in
            photos_loop r category files'
              (photos ++
               [{| photo_ID := photoID;
                   photo_Filename := filename;
                   photo_Title := strings_TrimSuffix filename fileExt;
                   photo_Category := category;
                   photo_URL := photoURL r category filename;
                   photo_UploadDate := Format_RFC3339 (ModTime fileInfo) |}])
        end
  end.

(** The inner loop of [deletePhotoHandler] over one directory. *)
Fixpoint scan_files (categoryDir photoID : string) (files : list DirEntry)
    (foundPath : string) : string :=
  match files with
  | [] => foundPath
  | file :: files' =>
      if IsDir file.2 then scan_files categoryDir photoID files' foundPath
      else
        let filename := file.1 in
        let fileExt := filepath_Ext filename in
        let id := strings_TrimSuffix filename fileExt in
        if bool_decide (id = photoID) then filepath_Join categoryDir filename
        else scan_files categoryDir photoID files' foundPath
  end.

(** The outer loop of [deletePhotoHandler] over the categories. *)
Fixpoint scan_categories (cats : list string) (photoID foundPath : string)
  : Go string :=
  match cats with
  | [] => ret foundPath
  | category :: cats' =>
      let categoryDir := filepath_Join "photos" category in
      listing <- os_ReadDir categoryDir ;;
      match listing with
      | Err _ => scan_categories cats' photoID foundPath
      | Ok files =>
          let foundPath := scan_files categoryDir photoID files foundPath in
          if bool_decide (foundPath ≠ "") then ret foundPath
          else scan_categories cats' photoID foundPath
      end
  end.

Section Server.

(** [jwtKey], read once from [JWT_SECRET_KEY], and the password hash. *)
Context (jwtKey : string) `{Bcrypt}.

Definition generateJWT (user : User) : Go (Res wire) :=
  t <- time_Now ;;
  let claims : gmap string JSON :=
    <["exp" := JNumber (time_Unix (time_Add t (time_Hour * 24)))]>
      (<["email" := JString (user_Email user)]>
         (<["user_id" := JNumber (user_ID user)]> ∅)) in
  ret (jwt_SignedString claims jwtKey).

Definition registerHandler : Handler := fun r => serve (
  creds <- on_err (json_Decode (Body_ r)) (fun _ =>
    respondWithError StatusBadRequest "Invalid request payload") ;;
  when_ (bool_decide (creds_Name creds = "")
         || bool_decide (creds_Email creds = "")
         || bool_decide (creds_Password creds = ""))
    (respondWithError StatusBadRequest
       "Name, email, and password are required") ;;;
  emailExists <- call_or (CheckEmailExists (creds_Email creds)) (fun _ =>
    respondWithError StatusInternalServerError "Database error") ;;
  when_ (bool_decide (emailExists = 1))
    (respondWithError StatusConflict "Email already in use") ;;;
  (* bcrypt draws its 16-byte salt from crypto/rand inside the call *)
  salt <- rand_Read 16 ;;
  hashedPassword <-
    on_err (GenerateFromPassword salt (creds_Password creds)
              bcrypt_DefaultCost) (fun _ =>
      respondWithError StatusInternalServerError "Error hashing password") ;;
  call_or (CreateUser (creds_Name creds) (creds_Email creds) hashedPassword)
    (fun _ =>
      respondWithError StatusInternalServerError "Error creating user") ;;;
  respondWithJSON StatusCreated
    {| Success := true; Message := "User registered successfully";
       Token_ := []; User_ := None; Data := NoData |}).

Definition loginHandler : Handler := fun r => serve (
  creds <- on_err (json_Decode (Body_ r)) (fun _ =>
    respondWithError StatusBadRequest "Invalid request payload") ;;
  when_ (bool_decide (creds_Email creds = "")
         || bool_decide (creds_Password creds = ""))
    (respondWithError StatusBadRequest "Email and password are required") ;;;
  user <- call_or (GetUserByEmail (creds_Email creds)) (fun _ =>
    respondWithError StatusUnauthorized "Invalid email or password") ;;
  fmt_Println ("Stored password hash: " +:+ user_Password user) ;;;
  fmt_Println ("Provided password: " +:+ creds_Password creds) ;;;
  when_ (negb (CompareHashAndPassword (user_Password user)
                 (creds_Password creds)))
    (respondWithError StatusUnauthorized "Invalid email or password") ;;;
  let userForJWT :=
    {| user_ID := user_ID user; user_Name := user_Name user;
       user_Email := user_Email user; user_Password := "";
       user_CreatedAt := 0 |} in
  token <- call_or (generateJWT userForJWT) (fun _ =>
    respondWithError StatusInternalServerError "Error generating token") ;;
  respondWithJSON StatusOK
    {| Success := true; Message := ""; Token_ := token;
       User_ := Some {| ur_ID := user_ID user; ur_Name := user_Name user;
                        ur_Email := user_Email user |};
       Data := NoData |}).

Definition profileHandler : Handler := fun r => serve (
  userID <- match Context_userID r with
            | Some v => ret v
            | None => panic "interface conversion: interface {} is nil, not int64"
            end ;;
  user <- call_or (GetUserByID userID) (fun _ =>
    respondWithError StatusNotFound "User not found") ;;
  respondWithJSON StatusOK
    {| Success := true; Message := ""; Token_ := [];
       User_ := Some {| ur_ID := user_ID user; ur_Name := user_Name user;
                        ur_Email := user_Email user |};
       Data := NoData |}).

Definition uploadPhotoHandler : Handler := fun r => serve (
  form <- on_err (ParseMultipartForm (Body_ r)) (fun _ =>
    respondWithError StatusBadRequest "Failed to parse form") ;;
  let title := FormValue form "title" in
  let category := FormValue form "category" in
  when_ (negb (default false (validCategories !! category)))
    (respondWithError StatusBadRequest "Invalid category") ;;;
  handler <- on_err (FormFile form "photo") (fun _ =>
    respondWithError StatusBadRequest "Failed to get file from form") ;;
  let contentType := Header_Get handler "Content-Type" in
  when_ (negb (strings_HasPrefix contentType "image/"))
    (respondWithError StatusBadRequest "File must be an image") ;;;
  let fileExt := filepath_Ext (fh_Filename handler) in
  photoID <- generateID ;;
  let filename := photoID +:+ fileExt in
  let categoryDir := filepath_Join "photos" category in
  let destPath := filepath_Join categoryDir filename in
  dest <- call_or (os_Create destPath) (fun _ =>
    respondWithError StatusInternalServerError
      "Failed to create destination file") ;;
  call_or (io_Copy dest (fh_Content handler)) (fun _ =>
    respondWithError StatusInternalServerError "Failed to save file") ;;;
  t <- time_Now ;;
  respondWithJSON StatusCreated
    {| Success := true; Message := "Photo uploaded successfully";
       Token_ := []; User_ := None;
       Data := OnePhoto
         {| photo_ID := photoID;
            photo_Filename := filename;
            photo_Title := title;
            photo_Category := category;
            photo_URL := photoURL r category filename;
            photo_UploadDate := Format_RFC3339 t |} |}).

Definition getPhotosByCategoryHandler : Handler := fun r => serve (
  let category := default "" (Vars r !! "category") in
  when_ (negb (default false (validCategories !! category)))
    (respondWithError StatusBadRequest "Invalid category") ;;;
  let categoryDir := filepath_Join "photos" category in
  files <- call_or (os_ReadDir categoryDir) (fun _ =>
    respondWithError StatusInternalServerError "Failed to read directory") ;;
  let photos := photos_loop r category files [] in
  respondWithJSON StatusOK
    {| Success := true; Message := ""; Token_ := []; User_ := None;
       Data := Photos photos |}).

Definition deletePhotoHandler : Handler := fun r => serve (
  let photoID := default "" (Vars r !! "id") in
  foundPath <- scan_categories categories photoID "" ;;
  when_ (bool_decide (foundPath = ""))
    (respondWithError StatusNotFound "Photo not found") ;;;
  call_or (os_Remove foundPath) (fun _ =>
    respondWithError StatusInternalServerError "Failed to delete photo") ;;;
  respondWithJSON StatusOK
    {| Success := true; Message := "Photo deleted successfully";
       Token_ := []; User_ := None; Data := NoData |}).

(** The key function handed to [jwt.Parse]. *)
Definition keyFunc (token : Token) : Res string :=
  match Method token with
  | SigningMethodHMAC _ => Ok jwtKey
  | _ => Err "unexpected signing method"
  end.

Definition authMiddleware (next : Handler) : Handler := fun r => serve (
  let authHeader := Header_Authorization r in
  when_ (bool_decide (authHeader = []))
    (respondWithError StatusUnauthorized "Authorization header required") ;;;
  when_ (negb (HasPrefix authHeader (text "Bearer ")))
    (respondWithError StatusUnauthorized "Invalid authorization format") ;;;
  let tokenString := TrimPrefix authHeader (text "Bearer ") in
  t <- time_Now ;;
  token <- on_err (jwt_Parse t tokenString keyFunc) (fun _ =>
    respondWithError StatusUnauthorized "Invalid token") ;;
  let claims := Claims token in
  if Valid token then
    t' <- time_Now ;;
    when_ (match claims !! "exp" with
           | Some (JNumber exp) => bool_decide (time_Unix t' > exp)
           | _ => false
           end)
      (respondWithError StatusUnauthorized "Token expired") ;;;
    userID <- match claims !! "user_id" with
              | Some (JNumber v) => ret v
              | _ => panic "interface conversion: interface {} is not float64"
              end ;;
    call (next (WithContext_userID r userID))
  else
    respondWithError StatusUnauthorized "Invalid token").

End Server.

(* ===================================================================== *)
(** * Start-up and sample data                                            *)
(* ===================================================================== *)

(** [initPhotoDirectories]: create each category directory that is missing. *)
Definition initPhotoDirectories (t : gmap string (gmap string File))
  : gmap string (gmap string File) :=
  foldr (fun category t =>
           let categoryPath := filepath_Join "photos" category in
           match t !! categoryPath with
           | None => <[categoryPath := ∅]> t
           | Some _ => t
           end) t categories.

(** The server right after [initDB] on an empty disk, at clock reading [t]. *)
Definition boot (t : Time) : World :=
  {| now := t; entropy := fun i => default Byte.x00 (Byte.of_nat (i mod 256));
     entropy_pos := 0; users := []; users_seq := 0;
     fs := initPhotoDirectories ∅; stdout := []; trace := [] |}.

(** A stand-in for bcrypt that keeps its contract: passwords longer than 72
    bytes are refused ([ErrPasswordTooLong]), and a hash compares equal to
    the password it was made from and to no other.  The salt does not show
    in the hash of the stand-in. *)
Definition bcrypt72 : Bcrypt.
Proof.
  refine
    {| GenerateFromPassword := fun _ password _ =>
         if bool_decide (72 < String.length password)%nat
         then Err "bcrypt: password length exceeds 72 bytes"
         else Ok ("$2a$10$" +:+ password);
       CompareHashAndPassword := fun hashed password =>
         bool_decide (hashed = "$2a$10$" +:+ password) |}.
  intros _ password _ hashed. case_bool_decide; [done|].
  intros [= <-]. by apply bool_decide_eq_true_2.
Defined.

Definition json_request (c : Credentials) : Request :=
  {| Header_Authorization := []; Body_ := JSONBody c; Vars := ∅;
     Host := "localhost:8080"; TLS := false; Context_userID := None |}.

Definition bearer_request (token : wire) : Request :=
  {| Header_Authorization := text "Bearer " ++ token; Body_ := NoBody;
     Vars := ∅; Host := "localhost:8080"; TLS := false;
     Context_userID := None |}.

Definition upload_request (title category filename contentType : string)
    (content : list Byte.byte) : Request :=
  {| Header_Authorization := [];
     Body_ := MultipartBody
       {| form_Value := <["title" := title]> (<["category" := category]> ∅);
          form_File :=
            <["photo" := {| fh_Filename := filename;
                            fh_Header := <["Content-Type" := contentType]> ∅;
                            fh_Content := content |}]> ∅ |};
     Vars := ∅; Host := "localhost:8080"; TLS := false;
     Context_userID := None |}.

Definition vars_request (key value : string) : Request :=
  {| Header_Authorization := []; Body_ := NoBody; Vars := <[key := value]> ∅;
     Host := "localhost:8080"; TLS := false; Context_userID := None |}.

Definition alice : Credentials :=
  {| creds_Name := "A"; creds_Email := "a@x.com"; creds_Password := "pw" |}.

(** A password of 73 bytes. *)
Definition long_password : string :=
  "aaaaaaaaaaaaaaaaaaaaaaaaaaaaaaaaaaaaaaaaaaaaaaaaaaaaaaaaaaaaaaaaaaaaaaaaa".

Definition verbose : Credentials :=
  {| creds_Name := "A"; creds_Email := "a@x.com";
     creds_Password := long_password |}.

(** The server after [alice] registered at clock reading [t]. *)
Definition with_alice (t : Time) : World :=
  (@registerHandler bcrypt72 (json_request alice) (boot t)).2.

(** The reply to and the state after a login of [alice] at [t]. *)
Definition alice_login (t : Time) : Outcome * World :=
  @loginHandler "secret" bcrypt72 (json_request alice) (with_alice t).

Definition reply_token (o : Outcome) : wire :=
  match o with
  | Responded _ payload => Token_ payload
  | Panicked _ => []
  end.

Definition reply_payload (o : Outcome) : Response :=
  match o with
  | Responded _ payload => payload
  | Panicked _ => failure ""
  end.

Definition a_file (t : Time) : File :=
  {| IsDir := false; ModTime := t; Bytes := [] |}.

(** A photo tree in which two categories hold a file with the stem [abc]. *)
Definition twins : World :=
  {| now := 0; entropy := fun _ => Byte.x00; entropy_pos := 0; users := [];
     users_seq := 0;
     fs := <["photos/featured" := <["abc.jpg" := a_file 0]> ∅]>
             (<["photos/photography" := <["abc.png" := a_file 0]> ∅]>
                (initPhotoDirectories ∅));
     stdout := []; trace := [] |}.

(** The server after one upload to [photography]. *)
Definition sunset : Request :=
  upload_request "Sunset" "photography" "IMG_1.JPG" "image/jpeg" [Byte.x01].

Definition with_sunset : Outcome * World := uploadPhotoHandler sunset (boot 0).

Definition notes : Request :=
  upload_request "Notes" "photography" "notes.txt" "text/plain" [Byte.x68].

Definition bob : Credentials :=
  {| creds_Name := "B"; creds_Email := "b@x.com"; creds_Password := "pw" |}.

Definition mallory : Credentials :=
  {| creds_Name := ""; creds_Email := "a@x.com"; creds_Password := "guess" |}.

(** The row of [alice] in [with_alice t]. *)
Definition alice_row (t : Time) : User :=
  {| user_ID := 1; user_Name := "A"; user_Email := "a@x.com";
     user_Password := "$2a$10$pw"; user_CreatedAt := t |}.

(** A second registration under the email of [alice]. *)
Definition impostor : Credentials :=
  {| creds_Name := "M"; creds_Email := "a@x.com";
     creds_Password := "other" |}.


(** The file part and the form of [sunset]. *)
Definition sunset_part : FileHeader :=
  {| fh_Filename := "IMG_1.JPG";
     fh_Header := <["Content-Type" := "image/jpeg"]> ∅;
     fh_Content := [Byte.x01] |}.

Definition sunset_form : Form :=
  {| form_Value := <["title" := "Sunset"]> (<["category" := "photography"]> ∅);
     form_File := <["photo" := sunset_part]> ∅ |}.

Definition sunset_name : string := "000102030405060708090a0b0c0d0e0f.JPG".

Definition sunset_file : File :=
  {| IsDir := false; ModTime := 0; Bytes := [Byte.x01] |}.

Definition sunset_record : PhotoResponse :=
  {| photo_ID := "000102030405060708090a0b0c0d0e0f";
     photo_Filename := sunset_name;
     photo_Title := "Sunset";
     photo_Category := "photography";
     photo_URL :=
       "http://localhost:8080/photos/photography/000102030405060708090a0b0c0d0e0f.JPG";
     photo_UploadDate := "1970-01-01T00:00:00Z" |}.

(** A server whose [photos] directories are all missing. *)
Definition no_directories : World :=
  {| now := 0; entropy := fun _ => Byte.x00; entropy_pos := 0; users := [];
     users_seq := 0; fs := ∅; stdout := []; trace := [] |}.

(* ===================================================================== *)
(** * Vocabulary of the statements                                        *)
(* ===================================================================== *)

(** The four category names, as the specification lists them. *)
Definition category_names : list string :=
  ["featured"; "digital-sketches"; "notebook-sketches"; "photography"].

(** The record a listing derives from the directory entry [name]. *)
Definition listed (r : Request) (category name : string) (info : File)
  : PhotoResponse :=
  {| photo_ID := strings_TrimSuffix name (filepath_Ext name);
     photo_Filename := name;
     photo_Title := strings_TrimSuffix name (filepath_Ext name);
     photo_Category := category;
     photo_URL := photoURL r category name;
     photo_UploadDate := Format_RFC3339 (ModTime info) |}.

(** The envelope of a successful listing. *)
Definition listing_of (ps : list PhotoResponse) : Response :=
  {| Success := true; Message := ""; Token_ := []; User_ := None;
     Data := Photos ps |}.


(** The filename minus its extension. *)
Definition stem (name : string) : string :=
  strings_TrimSuffix name (filepath_Ext name).

(** What [os.ReadDir] returns for [dir] in the tree [t]; nothing when the
    directory is missing. *)
Definition entries (t : gmap string (gmap string File)) (dir : string)
  : list DirEntry :=
  match t !! dir with
  | Some d => merge_sort entry_le (map_to_list d)
  | None => []
  end.

(** The entries of the category directories in the order a delete visits
    them, each with its directory. *)
Definition scan_order (t : gmap string (gmap string File))
    (cats : list string) : list (string * DirEntry) :=
  flat_map (fun category =>
              let categoryDir := filepath_Join "photos" category in
              map (pair categoryDir) (entries t categoryDir)) cats.

(** A regular file whose stem is [id]. *)
Definition hit (id : string) (x : string * DirEntry) : bool :=
  negb (IsDir x.2.2) && bool_decide (stem x.2.1 = id).

(** No filename holds a path separator. *)
Definition names_ok (t : gmap string (gmap string File)) : Prop :=
  map_Forall (λ _ d,
    map_Forall (λ name _, Forall (λ c, c ≠ "/"%char) (chars name)) d) t.

(** The envelope of a successful delete. *)
Definition deleted : Response :=
  {| Success := true; Message := "Photo deleted successfully"; Token_ := [];
     User_ := None; Data := NoData |}.

(** The claims [generateJWT] sets for [user] at clock reading [t]. *)
Definition issued_claims (user : User) (t : Time) : gmap string JSON :=
  <["exp" := JNumber (time_Unix (time_Add t (time_Hour * 24)))]>
    (<["email" := JString (user_Email user)]>
       (<["user_id" := JNumber (user_ID user)]> ∅)).

(** The token [generateJWT] signs with [key]. *)
Definition issued_token (key : string) (user : User) (t : Time) : JWS :=
  {| jws_alg := "HS256"; jws_claims := issued_claims user t;
     jws_sig := HMACOf "HS256" key |}.

(** The envelope of a successful login. *)
Definition logged_in (token : wire) (user : User) : Response :=
  {| Success := true; Message := ""; Token_ := token;
     User_ := Some {| ur_ID := user_ID user; ur_Name := user_Name user;
                      ur_Email := user_Email user |};
     Data := NoData |}.

(** The envelope of a successful registration. *)
Definition registered : Response :=
  {| Success := true; Message := "User registered successfully";
     Token_ := []; User_ := None; Data := NoData |}.

(** The first row of [users] with the given email, as [GetUserByEmail]
    selects it. *)
Definition stored (w : World) (email : string) : option User :=
  find (fun u => bool_decide (user_Email u = email)) (users w).

(** The instant at which a token with the numeric claim [exp] expires. *)
Definition expiry_of (exp : Z) : Time := time_of_Unix exp.

(** A request the middleware must turn away at clock reading [t]: no
    header, no [Bearer ] prefix, or a token whose signature does not verify
    under [key], whose algorithm is not an HMAC one, or whose [exp] has
    passed.  (The library reads [exp = 0] as no expiry; the handler's own
    comparison rejects such a token once the clock shows a later second.) *)
Definition turned_away (key : string) (r : Request) (t : Time) : Prop :=
  Header_Authorization r = [] ∨
  HasPrefix (Header_Authorization r) (text "Bearer ") = false ∨
  ∃ tok,
    Header_Authorization r = text "Bearer " ++ [Tok tok] ∧
    (jws_sig tok ≠ HMACOf (jws_alg tok) key ∨
     jws_alg tok ∉ ["HS256"; "HS384"; "HS512"] ∨
     ∃ exp, jws_claims tok !! "exp" = Some (JNumber exp) ∧
            expiry_of exp <= t ∧ (exp = 0 -> time_Second <= t)).

(** The identifier [generateID] returns in state [w]. *)
Definition fresh_id (w : World) : string :=
  hex_EncodeToString (map (entropy w) (seq (entropy_pos w) 16)).


(* ===================================================================== *)
(** * [corsMiddleware]                                                    *)
(* ===================================================================== *)

(** A request together with its method, which [corsMiddleware] reads. *)
Record MethodRequest := {
  req_Method : string;
  req : Request
}.

(** What reached the response writer under [corsMiddleware]: a bare
    [WriteHeader(code)] with no body, or what the next handler left. *)
Inductive Written :=
| Bare (code : Z)
| Passed (o : Outcome).

(** The headers [corsMiddleware] sets, in the order of its three [Set]
    calls. *)
Definition cors_headers : list (string * string) :=
  [("Access-Control-Allow-Origin", "*");
   ("Access-Control-Allow-Methods", "GET, POST, PUT, DELETE, OPTIONS");
   ("Access-Control-Allow-Headers", "Content-Type, Authorization")].

Definition corsMiddleware (next : Handler) (r : MethodRequest) (w : World)
  : (list (string * string) * Written) * World :=
  let headers := cors_headers in
  if bool_decide (req_Method r = "OPTIONS") then
    ((headers, Bare StatusOK), w)
  else
    let '(o, w') := next (req r) w in ((headers, Passed o), w').

(* ===================================================================== *)
(** * Further vocabulary                                                  *)
(* ===================================================================== *)

(** The status a handler answered with; 0 for a panic. *)
Definition status (o : Outcome) : Z :=
  match o with
  | Responded code _ => code
  | Panicked _ => 0
  end.

(** No two accounts share an email, and no two share an id. *)
Definition accounts_distinct (w : World) : Prop :=
  NoDup (map user_Email (users w)) ∧ NoDup (map user_ID (users w)).

(** The first row of [users] with the given id, as [GetUserByID] selects
    it. *)
Definition stored_by_id (w : World) (id : Z) : option User :=
  find (fun u => bool_decide (user_ID u = id)) (users w).


(** A registration request the handler answers with 400. *)
Definition bad_registration (r : Request) : Prop :=
  match json_Decode (Body_ r) with
  | Err _ => True
  | Ok creds =>
      creds_Name creds = "" ∨ creds_Email creds = "" ∨
      creds_Password creds = ""
  end.

(** A login the handler answers with a token: the payload decodes, both
    fields are filled, the email is stored and its hash accepts the
    password. *)
Definition good_login `{Bcrypt} (r : Request) (w : World) : Prop :=
  ∃ creds u,
    Body_ r = JSONBody creds ∧ creds_Email creds ≠ "" ∧
    creds_Password creds ≠ "" ∧ stored w (creds_Email creds) = Some u ∧
    CompareHashAndPassword (user_Password u) (creds_Password creds) = true.

(** A lower-case hexadecimal digit. *)
Definition is_hex (c : ascii) : Prop := c ∈ chars hextable.

(** The value of a hexadecimal digit ([fromHexChar] of [encoding/hex]). *)
Definition from_hex (c : ascii) : N :=
  let n := N_of_ascii c in
  if (n <? 58)%N then (n - 48)%N else (n - 87)%N.

(** A directory entry that is not a subdirectory. *)
Definition regular (e : DirEntry) : bool := negb (IsDir e.2).


(** The envelope of a successful upload. *)
Definition uploaded (p : PhotoResponse) : Response :=
  {| Success := true; Message := "Photo uploaded successfully";
     Token_ := []; User_ := None; Data := OnePhoto p |}.

(* ===================================================================== *)
(** * Properties of the string functions                                  *)
(* ===================================================================== *)

(** Settle a decidable closed statement by evaluating its decision. *)
Ltac by_evaluation := apply (bool_decide_unpack _); vm_compute; exact I.

(** A byte that is neither a dot nor a path separator. *)
Definition plain (c : ascii) : Prop := c ≠ "/"%char ∧ c ≠ "."%char.

Lemma chars_app (a b : string) : chars (a +:+ b) = chars a ++ chars b.
Proof. induction a as [|c a IH]; simpl; [done | by rewrite IH]. Qed.

Lemma Ext_loop_plain (s r seen : list ascii) :
  Forall plain s -> Ext_loop (rev s ++ r) seen = Ext_loop r (s ++ seen).
Proof.
  intros Hs. revert r seen.
  induction Hs as [|c s [Hsep Hdot] _ IH]; intros r seen; [done|].
  simpl rev. rewrite <- app_assoc. rewrite IH. simpl.
  unfold IsPathSeparator. by rewrite !bool_decide_eq_false_2.
Qed.

Lemma Ext_loop_shape (r seen : list ascii) :
  Forall plain seen ->
  Ext_loop r seen = [] ∨
  ∃ s, Ext_loop r seen = "."%char :: s ∧ Forall plain s.
Proof.
  revert seen. induction r as [|c r IH]; intros seen Hseen; simpl; [by left|].
  unfold IsPathSeparator. case_bool_decide as Hsep; [by left|].
  case_bool_decide as Hdot.
  - right. exists seen. by subst c.
  - apply IH. by constructor.
Qed.

(** [filepath.Ext] returns nothing, or a dot followed by plain bytes. *)
Lemma filepath_Ext_shape (path : string) :
  filepath_Ext path = "" ∨
  ∃ s, filepath_Ext path = String "."%char (of_chars s) ∧ Forall plain s.
Proof.
  unfold filepath_Ext.
  destruct (Ext_loop_shape (rev (chars path)) []) as [-> | (s & -> & Hs)];
    [constructor | by left | right; by exists s].
Qed.

(** A generated name [id ++ ext] has the extension [ext] again. *)
Lemma filepath_Ext_generated (id orig : string) :
  Forall plain (chars id) ->
  filepath_Ext (id +:+ filepath_Ext orig) = filepath_Ext orig.
Proof.
  intros Hid.
  destruct (filepath_Ext_shape orig) as [-> | (s & -> & Hs)].
  - unfold filepath_Ext. rewrite chars_app. simpl chars at 2.
    rewrite app_nil_r, <- (app_nil_r (rev _)), Ext_loop_plain by done.
    done.
  - unfold filepath_Ext at 1. rewrite chars_app. simpl chars at 2.
    rewrite list_ascii_of_string_of_list_ascii.
    rewrite rev_app_distr. simpl rev. rewrite <- !app_assoc.
    rewrite Ext_loop_plain by done. simpl. by rewrite app_nil_r.
Qed.

Lemma HasSuffix_app {A} `{EqDecision A} (h e : list A) :
  HasSuffix (h ++ e) e = true.
Proof.
  unfold HasSuffix. rewrite length_app.
  rewrite bool_decide_eq_true_2 by lia. simpl.
  apply bool_decide_eq_true_2.
  replace (length h + length e - length e)%nat with (length h) by lia.
  by rewrite drop_app_length.
Qed.

Lemma TrimSuffix_app {A} `{EqDecision A} (h e : list A) :
  TrimSuffix (h ++ e) e = h.
Proof.
  unfold TrimSuffix. rewrite HasSuffix_app, length_app.
  replace (length h + length e - length e)%nat with (length h) by lia.
  by rewrite take_app_length.
Qed.

Lemma strings_TrimSuffix_app (h e : string) :
  strings_TrimSuffix (h +:+ e) e = h.
Proof.
  unfold strings_TrimSuffix.
  by rewrite chars_app, TrimSuffix_app, string_of_list_ascii_of_string.
Qed.

Lemma hex_digit_plain (b : Byte.byte) :
  plain (hex_digit (N.shiftr (Byte.to_N b) 4)) ∧
  plain (hex_digit (N.land (Byte.to_N b) 15)).
Proof. destruct b; vm_compute; repeat split; discriminate. Qed.

(** The output of [hex.EncodeToString] has no dot and no separator. *)
Lemma hex_EncodeToString_plain (src : list Byte.byte) :
  Forall plain (chars (hex_EncodeToString src)).
Proof.
  unfold hex_EncodeToString. rewrite list_ascii_of_string_of_list_ascii.
  induction src as [|b src IH]; [constructor|].
  destruct (hex_digit_plain b) as [Hhi Hlo].
  change (flat_map ?f (b :: src)) with (f b ++ flat_map f src).
  apply Forall_app. split; [|exact IH].
  constructor; [exact Hhi|]. constructor; [exact Hlo|]. constructor.
Qed.

Lemma Split_loop_nosep (s r seen : list ascii) :
  Forall (λ c, c ≠ "/"%char) s ->
  Split_loop (rev s ++ r) seen = Split_loop r (s ++ seen).
Proof.
  intros Hs. revert r seen.
  induction Hs as [|c s Hsep _ IH]; intros r seen; [done|].
  simpl rev. rewrite <- app_assoc. rewrite IH. simpl.
  unfold IsPathSeparator. by rewrite bool_decide_eq_false_2.
Qed.

(** Splitting a joined path gives the two elements back. *)
Lemma path_split_Join (dir name : string) :
  Forall (λ c, c ≠ "/"%char) (chars name) ->
  path_split (filepath_Join dir name) = (dir, name).
Proof.
  intros Hname. unfold path_split, filepath_Join.
  rewrite !chars_app. simpl chars at 2.
  rewrite !rev_app_distr. simpl rev at 2. rewrite <- !app_assoc.
  rewrite Split_loop_nosep by done. simpl.
  rewrite rev_involutive, app_nil_r.
  by rewrite !string_of_list_ascii_of_string.
Qed.

Lemma filepath_Join_nonempty (dir name : string) :
  filepath_Join dir name ≠ "".
Proof.
  unfold filepath_Join. intros Heq. apply (f_equal chars) in Heq.
  rewrite !chars_app in Heq. simpl in Heq.
  by destruct (chars dir).
Qed.

(** The name an upload generates holds no separator. *)
Lemma generated_name_nosep (id orig : string) :
  Forall plain (chars id) ->
  Forall (λ c, c ≠ "/"%char) (chars (id +:+ filepath_Ext orig)).
Proof.
  intros Hid. rewrite chars_app. apply Forall_app. split.
  - eapply Forall_impl; [exact Hid | by intros c []].
  - destruct (filepath_Ext_shape orig) as [-> | (s & -> & Hs)]; [constructor|].
    simpl. rewrite list_ascii_of_string_of_list_ascii. constructor; [done|].
    eapply Forall_impl; [exact Hs | by intros c []].
Qed.

(* ===================================================================== *)
(** * Equations of the primitives                                         *)
(* ===================================================================== *)

Lemma os_ReadDir_run (name : string) (w : World) :
  os_ReadDir name w =
    (Next (match fs w !! name with
           | Some d => Ok (merge_sort entry_le (map_to_list d))
           | None => Err "no such file or directory"
           end), log_call (FS "ReadDir" name) w).
Proof. reflexivity. Qed.

Lemma generateID_run (w : World) :
  generateID w = (Next (fresh_id w), set_entropy_pos (entropy_pos w + 16) w).
Proof. reflexivity. Qed.

Lemma os_Create_run (dir name : string) (w : World) :
  Forall (λ c, c ≠ "/"%char) (chars name) ->
  os_Create (filepath_Join dir name) w =
    let w1 := log_call (FS "Create" (filepath_Join dir name)) w in
    match fs w !! dir with
    | None => (Next (Err "no such file or directory"), w1)
    | Some d =>
        if bool_decide (name = "") || from_option IsDir false (d !! name) then
          (Next (Err "is a directory"), w1)
        else
          (Next (Ok (filepath_Join dir name)),
           set_fs (<[dir := <[name := {| IsDir := false; ModTime := now w;
                                         Bytes := [] |}]> d]> (fs w)) w1)
    end.
Proof. intros Hname. unfold os_Create. by rewrite path_split_Join. Qed.

Lemma io_Copy_run (dir name : string) (src : list Byte.byte) (w : World) :
  Forall (λ c, c ≠ "/"%char) (chars name) ->
  io_Copy (filepath_Join dir name) src w =
    let w1 := log_call (FS "Write" (filepath_Join dir name)) w in
    match fs w !! dir with
    | None => (Next (Err "file already closed"), w1)
    | Some d =>
        match d !! name with
        | None => (Next (Err "file already closed"), w1)
        | Some f0 =>
            (Next (Ok (Z.of_nat (length src))),
             set_fs (<[dir := <[name := {| IsDir := IsDir f0; ModTime := now w;
                                           Bytes := Bytes f0 ++ src |}]> d]>
                       (fs w)) w1)
        end
    end.
Proof. intros Hname. unfold io_Copy. by rewrite path_split_Join. Qed.

Lemma os_Remove_run (dir name : string) (w : World) :
  Forall (λ c, c ≠ "/"%char) (chars name) ->
  os_Remove (filepath_Join dir name) w =
    let w1 := log_call (FS "Remove" (filepath_Join dir name)) w in
    match fs w !! dir with
    | None => (Next (Err "no such file or directory"), w1)
    | Some d =>
        match d !! name with
        | None => (Next (Err "no such file or directory"), w1)
        | Some f =>
            if IsDir f then (Next (Err "directory not empty"), w1)
            else (Next (Ok tt), set_fs (<[dir := delete name d]> (fs w)) w1)
        end
    end.
Proof. intros Hname. unfold os_Remove. by rewrite path_split_Join. Qed.

Lemma rand_Read_run (n : nat) (w : World) :
  rand_Read n w =
    (Next (map (entropy w) (seq (entropy_pos w) n)),
     set_entropy_pos (entropy_pos w + n)%nat w).
Proof. reflexivity. Qed.

Lemma fmt_Println_run (line : string) (w : World) :
  fmt_Println line w = (Next tt, set_stdout (stdout w ++ [line]) w).
Proof. reflexivity. Qed.

Lemma CheckEmailExists_run (email : string) (w : World) :
  CheckEmailExists email w =
    (Next (Ok (if existsb (fun u => bool_decide (user_Email u = email))
                          (users w) then 1 else 0)),
     log_call (SQL "CheckEmailExists" email) w).
Proof. reflexivity. Qed.

Lemma CreateUser_run (name email password : string) (w : World) :
  CreateUser name email password w =
    let w1 := log_call (SQL "CreateUser" email) w in
    if existsb (fun u => bool_decide (user_Email u = email)) (users w) then
      (Next (Err "UNIQUE constraint failed: users.email"), w1)
    else
      let row := {| user_ID := next_rowid w; user_Name := name;
                    user_Email := email; user_Password := password;
                    user_CreatedAt := now w |} in
      (Next (Ok row), set_users (users w ++ [row]) (user_ID row) w1).
Proof. reflexivity. Qed.

Lemma GetUserByEmail_run (email : string) (w : World) :
  GetUserByEmail email w =
    (Next (match stored w email with
           | Some u => Ok u
           | None => Err "sql: no rows in result set"
           end),
     log_call (SQL "GetUserByEmail" email) w).
Proof. reflexivity. Qed.

Lemma find_no_hit {A} (P : A -> bool) (l : list A) :
  (∀ x, x ∈ l -> P x = false) -> find P l = None.
Proof.
  induction l as [|a l IH]; intros Hl; simpl; [done|].
  rewrite (Hl a) by apply list_elem_of_here.
  apply IH. intros x Hx. apply Hl. by apply list_elem_of_further.
Qed.

Lemma stored_Some (w : World) (email : string) (u : User) :
  stored w email = Some u -> u ∈ users w ∧ user_Email u = email.
Proof.
  intros [Hin Heq%bool_decide_eq_true]%find_some.
  by apply list_elem_of_In in Hin.
Qed.

Lemma stored_appended (w w1 : World) (email : string) (row : User) :
  users w1 = users w ++ [row] ->
  (∀ u, u ∈ users w -> user_Email u ≠ email) ->
  user_Email row = email ->
  stored w1 email = Some row.
Proof.
  intros Hus Habsent Hrow. unfold stored. rewrite Hus. clear Hus.
  revert Habsent. generalize (users w). intros us.
  induction us as [|u us IH]; intros Habsent; simpl.
  - by rewrite bool_decide_eq_true_2.
  - rewrite bool_decide_eq_false_2 by (apply Habsent, list_elem_of_here).
    apply IH. intros u' Hu'. by apply Habsent, list_elem_of_further.
Qed.

Lemma existsb_absent (w : World) (email : string) :
  (∀ u, u ∈ users w -> user_Email u ≠ email) ->
  existsb (fun u => bool_decide (user_Email u = email)) (users w) = false.
Proof.
  generalize (users w). intros us.
  induction us as [|u us IH]; intros Habsent; simpl; [done|].
  rewrite bool_decide_eq_false_2 by (apply Habsent, list_elem_of_here).
  apply IH. intros u' Hu'. by apply Habsent, list_elem_of_further.
Qed.

Lemma text_app_nonempty (s : wire) : text "Bearer " ++ s ≠ [].
Proof. done. Qed.

Lemma HasPrefix_app {A} `{EqDecision A} (p s : list A) :
  HasPrefix (p ++ s) p = true.
Proof.
  induction p as [|c p IH]; simpl; [done|].
  by rewrite bool_decide_eq_true_2.
Qed.

Lemma TrimPrefix_app {A} `{EqDecision A} (p s : list A) :
  TrimPrefix (p ++ s) p = s.
Proof. unfold TrimPrefix. by rewrite HasPrefix_app, drop_app_length. Qed.

(** Whole seconds: [Unix] rounds down to the second. *)
Lemma time_Unix_bounds (t : Time) :
  time_of_Unix (time_Unix t) <= t < time_of_Unix (time_Unix t) + time_Second.
Proof.
  unfold time_of_Unix, time_Unix, time_Second.
  pose proof (Z.div_mod t 1000000000 ltac:(lia)).
  pose proof (Z.mod_pos_bound t 1000000000 ltac:(lia)). lia.
Qed.

Lemma time_Unix_gt (t : Time) (sec : Z) :
  time_Unix t > sec ↔ time_of_Unix sec + time_Second <= t.
Proof.
  pose proof (time_Unix_bounds t) as Hb.
  unfold time_of_Unix, time_Second in *. nia.
Qed.

Lemma time_of_Unix_0 : time_of_Unix 0 = 0.
Proof. reflexivity. Qed.

Lemma day_after_epoch (t : Time) :
  0 <= t -> 0 < time_Unix (time_Add t (time_Hour * 24)).
Proof.
  intros Ht. pose proof (time_Unix_bounds (time_Add t (time_Hour * 24))) as Hb.
  unfold time_of_Unix, time_Add, time_Hour, time_Second in *. nia.
Qed.

Lemma expiry_window (t : Time) :
  let expiry := expiry_of (time_Unix (time_Add t (time_Hour * 24))) in
  t + 24 * time_Hour - time_Second < expiry <= t + 24 * time_Hour.
Proof.
  pose proof (time_Unix_bounds (time_Add t (time_Hour * 24))) as Hb.
  unfold expiry_of, time_of_Unix, time_Add, time_Hour, time_Second in *.
  simpl. lia.
Qed.

Lemma GetUserByID_run (id : Z) (w : World) :
  GetUserByID id w =
    (Next (match stored_by_id w id with
           | Some u => Ok u
           | None => Err "sql: no rows in result set"
           end),
     log_call (SQL "GetUserByID" "") w).
Proof. reflexivity. Qed.

Lemma stored_None (w : World) (email : string) :
  stored w email = None ↔ ∀ u, u ∈ users w -> user_Email u ≠ email.
Proof.
  unfold stored. generalize (users w). intros us. split.
  - intros Hnone u Hin%list_elem_of_In Heq.
    eapply find_none in Hnone; [|exact Hin].
    by rewrite bool_decide_eq_true_2 in Hnone.
  - intros Habsent. apply find_no_hit.
    intros u Hu. apply bool_decide_eq_false_2. by apply Habsent.
Qed.

Lemma stored_existsb (w : World) (email : string) :
  existsb (fun u => bool_decide (user_Email u = email)) (users w) =
    match stored w email with Some _ => true | None => false end.
Proof.
  unfold stored. induction (users w) as [|u us IH]; simpl; [done|].
  by case_bool_decide.
Qed.

Lemma stored_by_id_Some (w : World) (id : Z) (u : User) :
  stored_by_id w id = Some u -> u ∈ users w ∧ user_ID u = id.
Proof.
  intros [Hin Heq%bool_decide_eq_true]%find_some.
  by apply list_elem_of_In in Hin.
Qed.


Lemma stored_by_id_appended (w w1 : World) (row : User) :
  users w1 = users w ++ [row] ->
  (∀ u, u ∈ users w -> user_ID u ≠ user_ID row) ->
  stored_by_id w1 (user_ID row) = Some row.
Proof.
  intros Hus Habsent. unfold stored_by_id. rewrite Hus. clear Hus.
  revert Habsent. generalize (users w). intros us.
  induction us as [|u us IH]; intros Habsent; simpl.
  - by rewrite bool_decide_eq_true_2.
  - rewrite bool_decide_eq_false_2 by (apply Habsent, list_elem_of_here).
    apply IH. intros u' Hu'. by apply Habsent, list_elem_of_further.
Qed.


(** [AUTOINCREMENT] hands out an id above every id in the table. *)
Lemma next_rowid_above (w : World) (u : User) :
  u ∈ users w -> user_ID u < next_rowid w.
Proof.
  unfold next_rowid. generalize (users_seq w). generalize (users w).
  intros us seq0. induction us as [|a us IH]; intros Hin;
    [by apply elem_of_nil in Hin|].
  simpl. apply elem_of_cons in Hin as [->|Hin]; [lia|].
  specialize (IH Hin). lia.
Qed.

Lemma length_of_chars (l : list ascii) : String.length (of_chars l) = length l.
Proof. induction l as [|c l IH]; simpl; [done | by rewrite IH]. Qed.

(** [hex.EncodeToString] gives two digits per byte. *)
Lemma hex_EncodeToString_length (src : list Byte.byte) :
  String.length (hex_EncodeToString src) = (2 * length src)%nat.
Proof.
  unfold hex_EncodeToString. rewrite length_of_chars.
  induction src as [|b src IH]; simpl; [done|]. rewrite IH. lia.
Qed.

Lemma hex_digits_of_byte (b : Byte.byte) :
  is_hex (hex_digit (N.shiftr (Byte.to_N b) 4)) ∧
  is_hex (hex_digit (N.land (Byte.to_N b) 15)) ∧
  Byte.of_N (16 * from_hex (hex_digit (N.shiftr (Byte.to_N b) 4))
             + from_hex (hex_digit (N.land (Byte.to_N b) 15))) = Some b.
Proof.
  destruct b; (split; [by_evaluation|]); (split; [by_evaluation|]);
    vm_compute; reflexivity.
Qed.

Lemma hex_EncodeToString_is_hex (src : list Byte.byte) :
  Forall is_hex (chars (hex_EncodeToString src)).
Proof.
  unfold hex_EncodeToString. rewrite list_ascii_of_string_of_list_ascii.
  induction src as [|b src IH]; [constructor|].
  destruct (hex_digits_of_byte b) as (Hhi & Hlo & _).
  change (flat_map ?f (b :: src)) with (f b ++ flat_map f src).
  apply Forall_app. split; [|exact IH].
  constructor; [exact Hhi|]. constructor; [exact Hlo|]. constructor.
Qed.

(** Different byte strings have different encodings. *)
Lemma hex_EncodeToString_inj (a b : list Byte.byte) :
  hex_EncodeToString a = hex_EncodeToString b -> a = b.
Proof.
  unfold hex_EncodeToString. intros Heq. apply (f_equal chars) in Heq.
  rewrite !list_ascii_of_string_of_list_ascii in Heq.
  revert b Heq. induction a as [|x a IH]; intros [|y b] Heq; try done.
  simpl in Heq. injection Heq as Hhi Hlo Hrest.
  destruct (hex_digits_of_byte x) as (_ & _ & Hx).
  destruct (hex_digits_of_byte y) as (_ & _ & Hy).
  rewrite Hhi, Hlo, Hy in Hx. injection Hx as ->.
  f_equal. by apply IH.
Qed.

(** Twenty-four hours are a whole number of seconds. *)
Lemma time_Unix_add_day (t : Time) :
  time_Unix (time_Add t (time_Hour * 24)) = time_Unix t + 86400.
Proof.
  unfold time_Unix, time_Add, time_Hour, time_Second.
  replace (t + 3600 * 1000000000 * 24) with (t + 86400 * 1000000000) by lia.
  by rewrite Z.div_add.
Qed.

(** [os.Remove] goes on to the next statement and touches no account. *)
Lemma os_Remove_frame (name : string) (w : World) :
  ∃ res w', os_Remove name w = (Next res, w') ∧ users w' = users w.
Proof.
  unfold os_Remove. destruct (path_split name) as [dir base].
  destruct (fs w !! dir) as [d|]; [|by eexists _, _].
  destruct (d !! base) as [f|]; [|by eexists _, _].
  destruct (IsDir f); by eexists _, _.
Qed.

(** From here on the library calls and primitives are used through their
    equations only. *)
Opaque hex_EncodeToString filepath_Ext filepath_Join path_split
  strings_TrimSuffix strings_HasPrefix Format_RFC3339 time_Unix time_of_Unix
  time_Add rand_Read generateID fmt_Println CheckEmailExists CreateUser
  GetUserByEmail GetUserByID os_ReadDir os_Create io_Copy os_Remove text
  stored.

(* ===================================================================== *)
(** * Category validation and the upload checks                           *)
(* ===================================================================== *)

Lemma validCategories_spec (c : string) :
  default false (validCategories !! c) = bool_decide (c ∈ category_names).
Proof.
  destruct (decide (c = "featured")) as [->|?]; [by vm_compute|].
  destruct (decide (c = "digital-sketches")) as [->|?]; [by vm_compute|].
  destruct (decide (c = "notebook-sketches")) as [->|?]; [by vm_compute|].
  destruct (decide (c = "photography")) as [->|?]; [by vm_compute|].
  unfold validCategories. rewrite !lookup_insert_ne, lookup_empty by done.
  symmetry. apply bool_decide_eq_false_2.
  unfold category_names. rewrite !elem_of_cons, elem_of_nil. tauto.
Qed.

(** C7.  The category check accepts exactly the four fixed names, and for a
    category [c] outside them both the upload and the listing answer 400
    "Invalid category" and leave the state, trace included, as it was: no
    filesystem call was issued. *)
Theorem invalid_category_rejected
    (c : string) (upload listing : Request) (form : Form) (w : World) :
  c ∉ category_names ->
  Body_ upload = MultipartBody form ->
  FormValue form "category" = c ->
  default "" (Vars listing !! "category") = c ->
  (∀ c', default false (validCategories !! c') = true ↔
         c' ∈ category_names) ∧
  uploadPhotoHandler upload w =
    (Responded StatusBadRequest (failure "Invalid category"), w) ∧
  getPhotosByCategoryHandler listing w =
    (Responded StatusBadRequest (failure "Invalid category"), w).
Proof.
  intros Hc Hbody Hcat Hvar. split; [|split].
  - intros c'. rewrite validCategories_spec. apply bool_decide_eq_true.
  - unfold uploadPhotoHandler, serve, bind. rewrite Hbody. simpl.
    rewrite Hcat, validCategories_spec, bool_decide_eq_false_2 by done.
    done.
  - unfold getPhotosByCategoryHandler, serve, bind.
    rewrite Hvar, validCategories_spec, bool_decide_eq_false_2 by done.
    done.
Qed.

(** C6.  An upload to a valid category whose file part is not declared as
    an image answers 400 "File must be an image" before any file is
    created: the state, trace included, is unchanged. *)
Theorem non_image_upload_rejected
    (r : Request) (form : Form) (handler : FileHeader) (w : World) :
  Body_ r = MultipartBody form ->
  FormValue form "category" ∈ category_names ->
  FormFile form "photo" = Ok handler ->
  strings_HasPrefix (Header_Get handler "Content-Type") "image/" = false ->
  uploadPhotoHandler r w =
    (Responded StatusBadRequest (failure "File must be an image"), w).
Proof.
  intros Hbody Hcat Hfile Htype.
  unfold uploadPhotoHandler, serve, bind. rewrite Hbody. simpl.
  rewrite validCategories_spec, bool_decide_eq_true_2 by done. simpl.
  rewrite Hfile. simpl. by rewrite Htype.
Qed.

(* ===================================================================== *)
(** * Upload and listing                                                  *)
(* ===================================================================== *)

(** What [os.ReadDir] lists is what the directory holds. *)
Lemma elem_of_listing (d : gmap string File) (name : string) (f : File) :
  (name, f) ∈ merge_sort entry_le (map_to_list d) ↔ d !! name = Some f.
Proof. by rewrite merge_sort_Permutation, elem_of_map_to_list. Qed.

Lemma photos_loop_app (r : Request) (category : string)
    (files : list DirEntry) (photos : list PhotoResponse) :
  photos_loop r category files photos =
    photos ++ photos_loop r category files [].
Proof.
  revert photos. induction files as [|[name f] files IH]; intros photos;
    simpl; [by rewrite app_nil_r|].
  destruct (IsDir f); [apply IH|].
  rewrite IH, (IH [_]). by rewrite app_assoc.
Qed.

(** The listing loop yields one record per regular file, and nothing else. *)
Lemma elem_of_photos_loop (r : Request) (category : string)
    (files : list DirEntry) (rec : PhotoResponse) :
  rec ∈ photos_loop r category files [] ↔
  ∃ name f, (name, f) ∈ files ∧ IsDir f = false ∧
            rec = listed r category name f.
Proof.
  induction files as [|[name f] files IH]; simpl.
  - split; [by intros ?%elem_of_nil | by intros (? & ? & ?%elem_of_nil & _)].
  - destruct (IsDir f) eqn:Hdir.
    + rewrite IH. split.
      * intros (n & g & Hin & Hg & ->). exists n, g. by rewrite elem_of_cons; auto.
      * intros (n & g & [[= -> ->]|Hin]%elem_of_cons & Hg & ->); [congruence|].
        by exists n, g.
    + rewrite photos_loop_app, elem_of_app, list_elem_of_singleton, IH. split.
      * intros [-> | (n & g & Hin & Hg & ->)].
        -- exists name, f. rewrite elem_of_cons. auto.
        -- exists n, g. rewrite elem_of_cons. auto.
      * intros (n & g & [[= -> ->]|Hin]%elem_of_cons & Hg & ->); [by left|].
        right. by exists n, g.
Qed.

(** A listing of a valid category whose directory exists. *)
Lemma listing_run (r : Request) (w : World) (d : gmap string File) :
  let category := default "" (Vars r !! "category") in
  category ∈ category_names ->
  fs w !! filepath_Join "photos" category = Some d ->
  getPhotosByCategoryHandler r w =
    (Responded StatusOK
       (listing_of
          (photos_loop r category (merge_sort entry_le (map_to_list d)) [])),
     log_call (FS "ReadDir" (filepath_Join "photos" category)) w).
Proof.
  intros category Hcat Hdir.
  unfold getPhotosByCategoryHandler, serve, bind, call_or, bind.
  fold category. rewrite validCategories_spec, bool_decide_eq_true_2 by done.
  simpl. by rewrite os_ReadDir_run, Hdir.
Qed.

(** The state an upload leaves and the record it returns, when it answers
    201. *)
Lemma upload_created_inv (r : Request) (w w1 : World) (payload : Response) :
  uploadPhotoHandler r w = (Responded StatusCreated payload, w1) ->
  ∃ form handler d,
    let category := FormValue form "category" in
    let filename := fresh_id w +:+ filepath_Ext (fh_Filename handler) in
    let dir := filepath_Join "photos" category in
    Body_ r = MultipartBody form ∧
    FormFile form "photo" = Ok handler ∧
    category ∈ category_names ∧
    fs w !! dir = Some d ∧
    fs w1 = <[dir := <[filename := {| IsDir := false; ModTime := now w;
                                      Bytes := fh_Content handler |}]> d]>
              (fs w) ∧
    payload =
      {| Success := true; Message := "Photo uploaded successfully";
         Token_ := []; User_ := None;
         Data := OnePhoto
           {| photo_ID := fresh_id w;
              photo_Filename := filename;
              photo_Title := FormValue form "title";
              photo_Category := category;
              photo_URL := photoURL r category filename;
              photo_UploadDate := Format_RFC3339 (now w) |} |}.
Proof.
  unfold uploadPhotoHandler, serve, bind, call_or, bind.
  destruct (Body_ r) as [| |form|] eqn:Hbody; simpl; try by intros [=].
  rewrite validCategories_spec. case_bool_decide as Hcat; simpl; [|by intros [=]].
  destruct (FormFile form "photo") as [handler|] eqn:Hfile; simpl;
    [|by intros [=]].
  destruct (strings_HasPrefix _ _); simpl; [|by intros [=]].
  rewrite generateID_run.
  pose proof (generated_name_nosep (fresh_id w) (fh_Filename handler)
                (hex_EncodeToString_plain _)) as Hname.
  rewrite os_Create_run by done. simpl.
  destruct (fs w !! _) as [d|] eqn:Hdir; simpl; [|by intros [=]].
  destruct (bool_decide _ || _) eqn:Hbad; simpl; [by intros [=]|].
  rewrite io_Copy_run by done. simpl.
  rewrite lookup_insert_eq. simpl. rewrite lookup_insert_eq. simpl.
  intros [= <- <-]. exists form, handler, d. simpl.
  rewrite !insert_insert_eq. done.
Qed.

(** C4.  After an upload that answers 201 with the record [p], a listing of
    the category of [p] (in any later state with the same photo tree)
    answers 200 with a record whose id and filename are those of [p]; the id
    the listing derives from the filename is the id the upload generated. *)
Theorem upload_then_listing
    (upload listing : Request) (w w1 w2 : World) (payload : Response)
    (p : PhotoResponse) :
  uploadPhotoHandler upload w = (Responded StatusCreated payload, w1) ->
  Data payload = OnePhoto p ->
  fs w2 = fs w1 ->
  default "" (Vars listing !! "category") = photo_Category p ->
  photo_ID p =
    strings_TrimSuffix (photo_Filename p) (filepath_Ext (photo_Filename p)) ∧
  ∃ ps w3,
    getPhotosByCategoryHandler listing w2 =
      (Responded StatusOK (listing_of ps), w3) ∧
    ∃ rec, rec ∈ ps ∧ photo_ID rec = photo_ID p ∧
           photo_Filename rec = photo_Filename p.
Proof.
  intros Hup Hdata Hfs Hvar.
  apply upload_created_inv in Hup
    as (form & handler & d & _ & _ & Hcat & Hdir & Hfs1 & ->).
  simpl in Hdata. injection Hdata as <-. simpl in *.
  assert (Hid : strings_TrimSuffix
                  (fresh_id w +:+ filepath_Ext (fh_Filename handler))
                  (filepath_Ext
                     (fresh_id w +:+ filepath_Ext (fh_Filename handler)))
                = fresh_id w).
  { rewrite filepath_Ext_generated by apply hex_EncodeToString_plain.
    apply strings_TrimSuffix_app. }
  split; [done|].
  eexists _, _. split.
  - apply listing_run; rewrite Hvar; [done|].
    rewrite Hfs, Hfs1. apply lookup_insert_eq.
  - eexists. split.
    + apply elem_of_photos_loop. eexists _, _. split; [|split; [|done]].
      * apply elem_of_listing, lookup_insert_eq.
      * done.
    + simpl. by rewrite Hid.
Qed.




(* ===================================================================== *)
(** * Deletion                                                            *)
(* ===================================================================== *)

Lemma find_first_hit {A} (P : A -> bool) (pre post : list A) (x : A) :
  (∀ y, y ∈ pre -> P y = false) -> P x = true ->
  find P (pre ++ x :: post) = Some x.
Proof.
  intros Hpre Hx. induction pre as [|a pre IH]; simpl; [by rewrite Hx|].
  rewrite (Hpre a) by apply list_elem_of_here.
  apply IH. intros y Hy. apply Hpre. by apply list_elem_of_further.
Qed.

Lemma find_app_first {A} (P : A -> bool) (l1 l2 : list A) :
  find P (l1 ++ l2) =
    match find P l1 with
    | Some x => Some x
    | None => find P l2
    end.
Proof. induction l1 as [|a l1 IH]; simpl; [done|]. by destruct (P a). Qed.

(** The inner loop returns the path of the first hit of the directory. *)
Lemma scan_files_find (dir id : string) (files : list DirEntry) :
  scan_files dir id files "" =
    match find (hit id) (map (pair dir) files) with
    | Some x => filepath_Join x.1 x.2.1
    | None => ""
    end.
Proof.
  induction files as [|[name f] files IH]; simpl; [done|].
  unfold hit at 1. simpl. destruct (IsDir f); simpl; [done|].
  fold (stem name). by case_bool_decide.
Qed.

(** The outer loop returns the path of the first hit in scan order, and
    only reads directories. *)
Lemma scan_categories_find (cats : list string) (id : string) (w : World) :
  ∃ w',
    scan_categories cats id "" w =
      (Next (match find (hit id) (scan_order (fs w) cats) with
             | Some x => filepath_Join x.1 x.2.1
             | None => ""
             end), w') ∧
    fs w' = fs w.
Proof.
  revert w. induction cats as [|category cats IH]; intros w; simpl.
  { by exists w. }
  unfold bind. rewrite os_ReadDir_run. rewrite find_app_first.
  unfold entries.
  destruct (fs w !! filepath_Join "photos" category) as [d|]; simpl.
  - rewrite scan_files_find.
    destruct (find (hit id) (map _ _)) as [x|]; simpl.
    + rewrite bool_decide_eq_true_2 by apply filepath_Join_nonempty.
      by eexists.
    + destruct (IH (log_call (FS "ReadDir" (filepath_Join "photos" category)) w))
        as (w' & -> & Hfs).
      by exists w'.
  - destruct (IH (log_call (FS "ReadDir" (filepath_Join "photos" category)) w))
      as (w' & -> & Hfs).
    by exists w'.
Qed.

Lemma elem_of_scan_order (t : gmap string (gmap string File))
    (cats : list string) (dir name : string) (f : File) :
  (dir, (name, f)) ∈ scan_order t cats ↔
  ∃ category d, category ∈ cats ∧ dir = filepath_Join "photos" category ∧
                t !! dir = Some d ∧ d !! name = Some f.
Proof.
  unfold scan_order. rewrite list_elem_of_In, in_flat_map. split.
  - intros (category & Hcat%list_elem_of_In & Hin).
    apply in_map_iff in Hin as ([n g] & [= Hdir -> ->] & Hin%list_elem_of_In).
    unfold entries in Hin. rewrite Hdir in Hin.
    destruct (t !! dir) as [d|] eqn:Hd; [|by apply elem_of_nil in Hin].
    apply elem_of_listing in Hin. by exists category, d.
  - intros (category & d & Hcat & -> & Hd & Hf).
    exists category. split; [by apply list_elem_of_In|].
    apply in_map_iff. exists (name, f). split; [done|].
    apply list_elem_of_In. unfold entries. rewrite Hd. by apply elem_of_listing.
Qed.

Lemma delete_not_found (r : Request) (w : World) :
  find (hit (default "" (Vars r !! "id"))) (scan_order (fs w) categories)
    = None ->
  ∃ w', deletePhotoHandler r w =
          (Responded StatusNotFound (failure "Photo not found"), w') ∧
        fs w' = fs w.
Proof.
  intros Hnone. unfold deletePhotoHandler, serve, bind.
  destruct (scan_categories_find categories (default "" (Vars r !! "id")) w)
    as (w' & -> & Hfs).
  rewrite Hnone. simpl. by exists w'.
Qed.

Lemma delete_found (r : Request) (w : World) (dir name : string) (f : File) :
  names_ok (fs w) ->
  find (hit (default "" (Vars r !! "id"))) (scan_order (fs w) categories)
    = Some (dir, (name, f)) ->
  ∃ d w', fs w !! dir = Some d ∧ d !! name = Some f ∧
          deletePhotoHandler r w = (Responded StatusOK deleted, w') ∧
          fs w' = <[dir := delete name d]> (fs w).
Proof.
  intros Hok Hfind.
  pose proof Hfind as Hin. apply find_some in Hin as [Hin Hhit].
  apply list_elem_of_In, elem_of_scan_order in Hin
    as (category & d & _ & _ & Hd & Hf).
  apply andb_prop in Hhit as [Hreg%negb_true_iff _]. simpl in Hreg.
  unfold deletePhotoHandler, serve, bind, call_or, bind.
  destruct (scan_categories_find categories (default "" (Vars r !! "id")) w)
    as (w1 & -> & Hfs).
  rewrite Hfind. simpl.
  rewrite bool_decide_eq_false_2 by apply filepath_Join_nonempty. simpl.
  rewrite os_Remove_run by exact (Hok dir d Hd name f Hf). simpl.
  rewrite Hfs, Hd, Hf, Hreg. simpl.
  exists d. eexists. repeat split; done.
Qed.

(** C5, as the code has it.  Delete visits the entries of the four category
    directories in a fixed order.  If none is a regular file whose stem is
    the id, it answers 404 and the photo tree is unchanged.  Otherwise it
    removes the first such file, and only that one, and answers 200; a
    second delete of the same id then answers 404 provided no later entry
    in the scan order has that stem as well. *)
Theorem delete_removes_first_match (r : Request) (w : World) (id : string) :
  default "" (Vars r !! "id") = id ->
  names_ok (fs w) ->
  ((∀ x, x ∈ scan_order (fs w) categories -> hit id x = false) ->
   ∃ w', deletePhotoHandler r w =
           (Responded StatusNotFound (failure "Photo not found"), w') ∧
         fs w' = fs w) ∧
  (∀ pre dir name f post,
     scan_order (fs w) categories = pre ++ (dir, (name, f)) :: post ->
     (∀ x, x ∈ pre -> hit id x = false) ->
     hit id (dir, (name, f)) = true ->
     ∃ d w',
       fs w !! dir = Some d ∧ d !! name = Some f ∧
       deletePhotoHandler r w = (Responded StatusOK deleted, w') ∧
       fs w' = <[dir := delete name d]> (fs w) ∧
       ((∀ x, x ∈ post -> hit id x = false) ->
        ∃ w'', deletePhotoHandler r w' =
                 (Responded StatusNotFound (failure "Photo not found"), w'') ∧
               fs w'' = fs w')).
Proof.
  intros <- Hok. split.
  - intros Hnone. apply delete_not_found. by apply find_no_hit.
  - intros pre dir name f post Hscan Hpre Hhit.
    destruct (delete_found r w dir name f Hok)
      as (d & w' & Hd & Hf & Hrun & Hfs).
    { rewrite Hscan. by apply find_first_hit. }
    exists d, w'. repeat (split; [done|]).
    intros Hpost. apply delete_not_found, find_no_hit.
    intros [dir' [n g]] Hin.
    apply elem_of_scan_order in Hin as (category & d' & Hcat & Hdir' & Hd' & Hg).
    assert (Hold : (dir', (n, g)) ∈ scan_order (fs w) categories ∧
                   (dir', (n, g)) ≠ (dir, (name, f))).
    { rewrite Hfs in Hd'. destruct (decide (dir' = dir)) as [->|Hne].
      - rewrite lookup_insert_eq in Hd'. injection Hd' as <-.
        apply lookup_delete_Some in Hg as [Hn Hg]. split; [|congruence].
        apply elem_of_scan_order. by exists category, d.
      - rewrite lookup_insert_ne in Hd' by done. split; [|congruence].
        apply elem_of_scan_order. by exists category, d'. }
    destruct Hold as [Hold Hne]. rewrite Hscan in Hold.
    apply elem_of_app in Hold as [Hold|Hold]; [by apply Hpre|].
    apply elem_of_cons in Hold as [Hold|Hold]; [done|by apply Hpost].
Qed.

(* ===================================================================== *)
(** * Filenames stay free of separators                                   *)
(* ===================================================================== *)

Lemma names_ok_boot (t : Time) : names_ok (fs (boot t)).
Proof. by_evaluation. Qed.

(** An upload leaves the photo tree as it was or adds one file under a
    generated name. *)
Lemma upload_fs (r : Request) (w : World) :
  fs (uploadPhotoHandler r w).2 = fs w ∨
  ∃ dir d name f,
    Forall (λ c, c ≠ "/"%char) (chars name) ∧ fs w !! dir = Some d ∧
    fs (uploadPhotoHandler r w).2 = <[dir := <[name := f]> d]> (fs w).
Proof.
  unfold uploadPhotoHandler, serve, bind, call_or, bind.
  destruct (Body_ r) as [| |form|]; simpl; try by left.
  destruct (negb _); simpl; [by left|].
  destruct (FormFile form "photo") as [handler|]; simpl; [|by left].
  destruct (negb _); simpl; [by left|].
  rewrite generateID_run.
  pose proof (generated_name_nosep (fresh_id w) (fh_Filename handler)
                (hex_EncodeToString_plain _)) as Hname.
  rewrite os_Create_run by done. simpl.
  destruct (fs w !! _) as [d|] eqn:Hdir; simpl; [|by left].
  destruct (bool_decide _ || _); simpl; [by left|].
  rewrite io_Copy_run by done. simpl.
  rewrite lookup_insert_eq. simpl. rewrite lookup_insert_eq. simpl.
  right. eexists _, d, _, _. split; [exact Hname|]. split; [exact Hdir|].
  by rewrite !insert_insert_eq.
Qed.

Lemma upload_keeps_names_ok (r : Request) (w : World) :
  names_ok (fs w) -> names_ok (fs (uploadPhotoHandler r w).2).
Proof.
  intros Hok.
  destruct (upload_fs r w) as [-> | (dir & d & name & f & Hname & Hd & ->)];
    [done|].
  apply map_Forall_insert_2; [|done].
  apply map_Forall_insert_2; [done|]. exact (Hok dir d Hd).
Qed.

Lemma delete_keeps_names_ok (r : Request) (w : World) :
  names_ok (fs w) -> names_ok (fs (deletePhotoHandler r w).2).
Proof.
  intros Hok.
  destruct (find (hit (default "" (Vars r !! "id")))
              (scan_order (fs w) categories)) as [[dir [name f]]|] eqn:Hfind.
  - destruct (delete_found r w dir name f Hok Hfind)
      as (d & w' & Hd & _ & -> & Hfs). simpl. rewrite Hfs.
    apply map_Forall_insert_2; [|done].
    apply map_Forall_delete. exact (Hok dir d Hd).
  - destruct (delete_not_found r w Hfind) as (w' & -> & Hfs). simpl.
    by rewrite Hfs.
Qed.

(* ===================================================================== *)
(** * Registration, login and the bearer token                            *)
(* ===================================================================== *)

Section AuthProperties.

Context (jwtKey : string) `{Bcrypt}.

Lemma generateJWT_run (user : User) (w : World) :
  generateJWT jwtKey user w =
    (Next (Ok [Tok (issued_token jwtKey user (now w))]), w).
Proof. reflexivity. Qed.

(** A login with the stored email and a password the hash accepts. *)
Lemma login_run (r : Request) (creds : Credentials) (u : User) (w : World) :
  Body_ r = JSONBody creds ->
  creds_Email creds ≠ "" ->
  creds_Password creds ≠ "" ->
  stored w (creds_Email creds) = Some u ->
  CompareHashAndPassword (user_Password u) (creds_Password creds) = true ->
  ∃ w1, loginHandler jwtKey r w =
          (Responded StatusOK
             (logged_in [Tok (issued_token jwtKey u (now w))] u), w1).
Proof.
  intros Hbody Hemail Hpw Hrow Hcmp.
  unfold loginHandler, serve, bind, call_or, bind. rewrite Hbody. simpl.
  rewrite !bool_decide_eq_false_2 by done. simpl.
  rewrite GetUserByEmail_run, Hrow. simpl.
  rewrite !fmt_Println_run. rewrite Hcmp. simpl.
  by eexists.
Qed.

(** A login answers 200 only with the token issued for the stored row. *)
Lemma login_ok_inv (r : Request) (w w1 : World) (payload : Response) :
  loginHandler jwtKey r w = (Responded StatusOK payload, w1) ->
  ∃ creds u,
    Body_ r = JSONBody creds ∧
    stored w (creds_Email creds) = Some u ∧
    payload = logged_in [Tok (issued_token jwtKey u (now w))] u.
Proof.
  unfold loginHandler, serve, bind, call_or, bind.
  destruct (Body_ r) as [|creds| |] eqn:Hbody; simpl; try by intros [=].
  destruct (bool_decide _ || bool_decide _); simpl; [by intros [=]|].
  rewrite GetUserByEmail_run.
  destruct (stored w (creds_Email creds)) as [u|] eqn:Hrow; simpl;
    [|by intros [=]].
  rewrite !fmt_Println_run.
  destruct (CompareHashAndPassword _ _); simpl; [|by intros [=]].
  intros [= <- <-]. by exists creds, u.
Qed.

(** C9.  A login with an email the store does not hold and a login with a
    stored email whose hash rejects the password get the same reply: 401
    with the message "Invalid email or password". *)
Theorem login_failures_indistinguishable
    (unknown wrong : Request) (c1 c2 : Credentials) (u : User) (w : World) :
  Body_ unknown = JSONBody c1 ->
  creds_Email c1 ≠ "" -> creds_Password c1 ≠ "" ->
  (∀ row, row ∈ users w -> user_Email row ≠ creds_Email c1) ->
  Body_ wrong = JSONBody c2 ->
  creds_Email c2 ≠ "" -> creds_Password c2 ≠ "" ->
  u ∈ users w -> user_Email u = creds_Email c2 ->
  (∀ row, row ∈ users w -> user_Email row = creds_Email c2 ->
          CompareHashAndPassword (user_Password row) (creds_Password c2)
            = false) ->
  (loginHandler jwtKey unknown w).1 = (loginHandler jwtKey wrong w).1 ∧
  (loginHandler jwtKey wrong w).1 =
    Responded StatusUnauthorized (failure "Invalid email or password").
Proof.
  intros Hb1 He1 Hp1 Habsent Hb2 He2 Hp2 Hin Hemail Hwrong.
  assert (Hleft : (loginHandler jwtKey unknown w).1 =
            Responded StatusUnauthorized
              (failure "Invalid email or password")).
  { unfold loginHandler, serve, bind, call_or, bind. rewrite Hb1. simpl.
    rewrite !bool_decide_eq_false_2 by done. simpl.
    rewrite GetUserByEmail_run.
    destruct (stored w (creds_Email c1)) as [row|] eqn:Hrow; [|done].
    apply stored_Some in Hrow as [Hrow Heq]. by apply Habsent in Hrow. }
  assert (Hright : (loginHandler jwtKey wrong w).1 =
            Responded StatusUnauthorized
              (failure "Invalid email or password")).
  { unfold loginHandler, serve, bind, call_or, bind. rewrite Hb2. simpl.
    rewrite !bool_decide_eq_false_2 by done. simpl.
    rewrite GetUserByEmail_run.
    destruct (stored w (creds_Email c2)) as [row|] eqn:Hrow; [|done].
    simpl. rewrite !fmt_Println_run.
    apply stored_Some in Hrow as [Hrow Heq]. by rewrite (Hwrong row). }
  by rewrite Hleft, Hright.
Qed.

(** A registration with fresh email whose password the hash accepts. *)
Lemma register_run (r : Request) (creds : Credentials) (hashed : string)
    (w : World) :
  Body_ r = JSONBody creds ->
  creds_Name creds ≠ "" ->
  creds_Email creds ≠ "" ->
  creds_Password creds ≠ "" ->
  (∀ u, u ∈ users w -> user_Email u ≠ creds_Email creds) ->
  GenerateFromPassword (map (entropy w) (seq (entropy_pos w) 16))
    (creds_Password creds) bcrypt_DefaultCost = Ok hashed ->
  ∃ w1,
    registerHandler r w = (Responded StatusCreated registered, w1) ∧
    users w1 =
      users w ++ [{| user_ID := next_rowid w;
                     user_Name := creds_Name creds;
                     user_Email := creds_Email creds;
                     user_Password := hashed;
                     user_CreatedAt := now w |}].
Proof.
  intros Hbody Hname Hemail Hpw Habsent Hhash.
  unfold registerHandler, serve, bind, call_or, bind. rewrite Hbody. simpl.
  rewrite !bool_decide_eq_false_2 by done. simpl.
  rewrite CheckEmailExists_run, existsb_absent by done. simpl.
  rewrite rand_Read_run. cbn [entropy entropy_pos log_call].
  rewrite Hhash. simpl.
  rewrite CreateUser_run. simpl. rewrite existsb_absent by done.
  by eexists.
Qed.

(** C1, as the code has it.  A registration with non-empty name, email
    and password, an email the store does not hold yet and a password
    that [bcrypt.GenerateFromPassword] accepts answers 201 and appends one
    account; a later login with the same email and password answers 200
    with a token whose [user_id] and [email] claims are the id and the
    email of that account. *)
Theorem register_then_login
    (register login : Request) (creds creds' : Credentials)
    (hashed : string) (w : World) :
  Body_ register = JSONBody creds ->
  creds_Name creds ≠ "" ->
  creds_Email creds ≠ "" ->
  creds_Password creds ≠ "" ->
  (∀ u, u ∈ users w -> user_Email u ≠ creds_Email creds) ->
  GenerateFromPassword (map (entropy w) (seq (entropy_pos w) 16))
    (creds_Password creds) bcrypt_DefaultCost = Ok hashed ->
  Body_ login = JSONBody creds' ->
  creds_Email creds' = creds_Email creds ->
  creds_Password creds' = creds_Password creds ->
  ∃ w1 account,
    registerHandler register w = (Responded StatusCreated registered, w1) ∧
    users w1 = users w ++ [account] ∧
    user_Name account = creds_Name creds ∧
    user_Email account = creds_Email creds ∧
    ∀ w2, users w2 = users w1 ->
      ∃ tok w3,
        loginHandler jwtKey login w2 =
          (Responded StatusOK (logged_in [Tok tok] account), w3) ∧
        jws_claims tok !! "user_id" = Some (JNumber (user_ID account)) ∧
        jws_claims tok !! "email" = Some (JString (user_Email account)).
Proof.
  intros Hbody Hname Hemail Hpw Habsent Hhash Hbody' Hemail' Hpw'.
  destruct (register_run register creds hashed w) as (w1 & Hreg & Hus);
    try done.
  eexists w1, _. split; [exact Hreg|]. split; [exact Hus|].
  split; [done|]. split; [done|].
  intros w2 Hus2.
  destruct (login_run login creds'
              {| user_ID := next_rowid w; user_Name := creds_Name creds;
                 user_Email := creds_Email creds; user_Password := hashed;
                 user_CreatedAt := now w |} w2) as (w3 & Hlogin);
    try done; try congruence.
  - eapply stored_appended; [by rewrite Hus2, Hus| |done].
    by rewrite Hemail'.
  - simpl. rewrite Hpw'. by eapply Compare_Generate.
  - eexists _, w3. split; [exact Hlogin|]. split; reflexivity.
Qed.

(** [jwt.Parse] with the middleware's key function, on a token whose
    algorithm is an HMAC one. *)
Lemma jwt_Parse_hmac (t : Time) (raw : JWS) :
  jws_alg raw ∈ ["HS256"; "HS384"; "HS512"] ->
  jwt_Parse t [Tok raw] (keyFunc jwtKey) =
    if bool_decide (jws_sig raw = HMACOf (jws_alg raw) jwtKey) then
      match jwt_Validate (jws_claims raw) t with
      | Some e => Err e
      | None => Ok {| Method := SigningMethodHMAC (jws_alg raw);
                      Claims := jws_claims raw; Valid := true |}
      end
    else Err "signature is invalid".
Proof.
  intros Halg. unfold jwt_Parse, jwt_GetSigningMethod.
  rewrite bool_decide_eq_true_2 by done. simpl.
  by destruct (bool_decide (jws_sig raw = _)).
Qed.

Lemma jwt_Parse_not_hmac (t : Time) (raw : JWS) :
  jws_alg raw ∉ ["HS256"; "HS384"; "HS512"] ->
  ∃ e, jwt_Parse t [Tok raw] (keyFunc jwtKey) = Err e.
Proof.
  intros Halg. unfold jwt_Parse, jwt_GetSigningMethod.
  rewrite bool_decide_eq_false_2 by done.
  repeat (case_bool_decide; [by eexists|]). by eexists.
Qed.

Lemma jwt_Parse_Ok_inv (t : Time) (raw : JWS) (token : Token) :
  jwt_Parse t [Tok raw] (keyFunc jwtKey) = Ok token ->
  Claims token = jws_claims raw ∧ Valid token = true ∧
  jws_sig raw = HMACOf (jws_alg raw) jwtKey ∧
  jwt_Validate (jws_claims raw) t = None.
Proof.
  destruct (decide (jws_alg raw ∈ ["HS256"; "HS384"; "HS512"])) as [Halg|Halg].
  - rewrite jwt_Parse_hmac by done. case_bool_decide; [|done].
    destruct (jwt_Validate _ _); [done|]. by intros [= <-].
  - destruct (jwt_Parse_not_hmac t raw Halg) as [e ->]. done.
Qed.

(** The middleware on a header that carries the [Bearer ] prefix. *)
Lemma authMiddleware_bearer (next : Handler) (r : Request) (w : World)
    (tokenString : wire) :
  Header_Authorization r = text "Bearer " ++ tokenString ->
  authMiddleware jwtKey next r w =
    match jwt_Parse (now w) tokenString (keyFunc jwtKey) with
    | Err _ => (Responded StatusUnauthorized (failure "Invalid token"), w)
    | Ok token =>
        if Valid token then
          if match Claims token !! "exp" with
             | Some (JNumber exp) => bool_decide (time_Unix (now w) > exp)
             | _ => false
             end
          then (Responded StatusUnauthorized (failure "Token expired"), w)
          else
            match Claims token !! "user_id" with
            | Some (JNumber v) => next (WithContext_userID r v) w
            | _ => (Panicked
                      "interface conversion: interface {} is not float64", w)
            end
        else (Responded StatusUnauthorized (failure "Invalid token"), w)
    end.
Proof.
  intros Hhdr. unfold authMiddleware, serve, bind. rewrite Hhdr.
  rewrite bool_decide_eq_false_2 by apply text_app_nonempty.
  rewrite HasPrefix_app, TrimPrefix_app. simpl.
  destruct (jwt_Parse _ _ _) as [token|e]; simpl; [|done].
  destruct (Valid token); simpl; [|done].
  destruct (Claims token !! "exp") as [[| |exp|]|]; simpl;
    try case_bool_decide; simpl; try done;
    destruct (Claims token !! "user_id") as [[| |v|]|]; simpl; try done;
    unfold call; by destruct (next _ _).
Qed.

(** A token with a future [exp], no [nbf] and a good signature passes. *)
Lemma jwt_Validate_future (claims : gmap string JSON) (t : Time) (exp : Z) :
  claims !! "exp" = Some (JNumber exp) ->
  claims !! "nbf" = None ->
  t < expiry_of exp ->
  jwt_Validate claims t = None.
Proof.
  intros Hexp Hnbf Hlt. unfold jwt_Validate, parseNumericDate.
  rewrite Hexp, Hnbf. case_bool_decide; [done|].
  unfold time_Before. by rewrite bool_decide_eq_true_2.
Qed.

(** A token whose non-zero [exp] has passed does not. *)
Lemma jwt_Validate_passed (claims : gmap string JSON) (t : Time) (exp : Z) :
  claims !! "exp" = Some (JNumber exp) ->
  exp ≠ 0 ->
  expiry_of exp <= t ->
  jwt_Validate claims t = Some "token is expired".
Proof.
  intros Hexp Hnz Hle. unfold jwt_Validate, parseNumericDate.
  rewrite Hexp, bool_decide_eq_false_2 by done.
  unfold time_Before. rewrite bool_decide_eq_false_2; [done|].
  unfold expiry_of in Hle. lia.
Qed.

Lemma issued_claims_exp (u : User) (t : Time) :
  issued_claims u t !! "exp" =
    Some (JNumber (time_Unix (time_Add t (time_Hour * 24)))).
Proof. unfold issued_claims. by rewrite lookup_insert_eq. Qed.

Lemma issued_claims_nbf (u : User) (t : Time) :
  issued_claims u t !! "nbf" = None.
Proof. unfold issued_claims. by rewrite !lookup_insert_ne. Qed.

Lemma issued_claims_user_id (u : User) (t : Time) :
  issued_claims u t !! "user_id" = Some (JNumber (user_ID u)).
Proof.
  unfold issued_claims. rewrite !lookup_insert_ne by done.
  by rewrite lookup_insert_eq.
Qed.

(** C2, as the code has it.  The token a login issues at clock reading
    [T] (not before the epoch) carries [exp], the whole second reached by
    cutting the fraction off [T + 24h]: later than [T + 24h - 1s] and not
    later than [T + 24h].  At every instant strictly before [exp] the
    middleware accepts the token and runs the wrapped handler with the
    account's id; at every instant from [exp] on it answers 401. *)
Theorem token_valid_until_exp
    (login : Request) (w w1 : World) (payload : Response) (T : Time) :
  now w = T ->
  0 <= T ->
  loginHandler jwtKey login w = (Responded StatusOK payload, w1) ->
  let expiry := expiry_of (time_Unix (time_Add T (time_Hour * 24))) in
  T + 24 * time_Hour - time_Second < expiry <= T + 24 * time_Hour ∧
  ∃ uid, ∀ (r : Request) (next : Handler) (w' : World),
    Header_Authorization r = text "Bearer " ++ Token_ payload ->
    (now w' < expiry ->
     authMiddleware jwtKey next r w' = next (WithContext_userID r uid) w') ∧
    (expiry <= now w' ->
     authMiddleware jwtKey next r w' =
       (Responded StatusUnauthorized (failure "Invalid token"), w')).
Proof.
  intros HT Hpos Hlogin expiry. split; [apply expiry_window|].
  apply login_ok_inv in Hlogin as (creds & u & _ & _ & ->). rewrite HT.
  exists (user_ID u). intros r next w' Hhdr. simpl in Hhdr.
  rewrite (authMiddleware_bearer next r w' _ Hhdr).
  rewrite jwt_Parse_hmac by (simpl; rewrite !elem_of_cons; auto).
  simpl. rewrite bool_decide_eq_true_2 by done.
  pose proof (day_after_epoch T Hpos) as Hday.
  split; intros Ht.
  - rewrite (jwt_Validate_future _ _ _ (issued_claims_exp u T)
               (issued_claims_nbf u T) Ht). simpl.
    rewrite issued_claims_exp, issued_claims_user_id.
    rewrite bool_decide_eq_false_2; [done|].
    rewrite time_Unix_gt. unfold expiry, expiry_of in Ht.
    unfold time_Second. lia.
  - rewrite (jwt_Validate_passed _ _ _ (issued_claims_exp u T)); [done| |done].
    lia.
Qed.

(** C3.  A request whose Authorization header is missing or lacks the
    [Bearer ] prefix, or whose token has a signature that does not
    verify under the server key, a signing algorithm that is not HMAC, or
    an [exp] that has passed, gets 401 from the middleware.  The reply is
    fixed by the request and the clock alone: it is the same for every
    wrapped handler and every content of the store and the photo tree,
    and the state, trace included, is left as it was, so the wrapped
    handler did not run and no store or filesystem call was made. *)
Theorem unauthenticated_request_stops_at_middleware
    (r : Request) (t : Time) :
  turned_away jwtKey r t ->
  ∃ message, ∀ (next : Handler) (w : World),
    now w = t ->
    authMiddleware jwtKey next r w =
      (Responded StatusUnauthorized (failure message), w).
Proof.
  intros [Hnone | [Hprefix | (tok & Hhdr & Hbad)]].
  - exists "Authorization header required". intros next w _.
    unfold authMiddleware, serve, bind.
    by rewrite bool_decide_eq_true_2.
  - destruct (decide (Header_Authorization r = [])) as [Hnone|Hsome].
    + exists "Authorization header required". intros next w _.
      unfold authMiddleware, serve, bind.
      by rewrite bool_decide_eq_true_2.
    + exists "Invalid authorization format". intros next w _.
      unfold authMiddleware, serve, bind.
      rewrite bool_decide_eq_false_2 by done. simpl.
      by rewrite Hprefix.
  - destruct (jwt_Parse t [Tok tok] (keyFunc jwtKey)) as [token|e] eqn:Hparse.
    + apply jwt_Parse_Ok_inv in Hparse as Hinv.
      destruct Hinv as (Hclaims & Hvalid & Hsig & Hval).
      destruct Hbad as [Hbad | [Hbad | (exp & Hexp & Hpassed & Hzero)]].
      * done.
      * destruct (jwt_Parse_not_hmac t tok Hbad) as [e He]. congruence.
      * destruct (decide (exp = 0)) as [->|Hnz].
        -- exists "Token expired". intros next w <-.
           rewrite (authMiddleware_bearer next r w _ Hhdr), Hparse.
           rewrite Hvalid, Hclaims, Hexp.
           rewrite bool_decide_eq_true_2; [done|].
           apply time_Unix_gt. specialize (Hzero eq_refl).
           rewrite time_of_Unix_0. lia.
        -- by rewrite (jwt_Validate_passed _ _ _ Hexp Hnz Hpassed) in Hval.
    + exists "Invalid token". intros next w <-.
      by rewrite (authMiddleware_bearer next r w _ Hhdr), Hparse.
Qed.

(** A token that verifies and has not expired but carries no numeric
    [user_id] makes the middleware panic. *)
Lemma authMiddleware_user_id_unchecked
    (tok : JWS) (exp : Z) (r : Request) (next : Handler) (w : World) :
  Header_Authorization r = text "Bearer " ++ [Tok tok] ->
  jws_alg tok ∈ ["HS256"; "HS384"; "HS512"] ->
  jws_sig tok = HMACOf (jws_alg tok) jwtKey ->
  jws_claims tok !! "exp" = Some (JNumber exp) ->
  jws_claims tok !! "nbf" = None ->
  now w < expiry_of exp ->
  (∀ v, jws_claims tok !! "user_id" ≠ Some (JNumber v)) ->
  authMiddleware jwtKey next r w =
    (Panicked "interface conversion: interface {} is not float64", w).
Proof.
  intros Hhdr Halg Hsig Hexp Hnbf Hlt Huid.
  rewrite (authMiddleware_bearer next r w _ Hhdr).
  rewrite jwt_Parse_hmac by done.
  rewrite bool_decide_eq_true_2 by done.
  rewrite (jwt_Validate_future _ _ _ Hexp Hnbf Hlt). simpl.
  rewrite Hexp. rewrite bool_decide_eq_false_2.
  - destruct (jws_claims tok !! "user_id") as [[| |v|]|] eqn:Hv; try done.
    by destruct (Huid v).
  - rewrite time_Unix_gt. unfold expiry_of in Hlt. unfold time_Second. lia.
Qed.

(** C10.  At every clock reading there is a token, signed with the server
    key under HS256 and not expired, without a [user_id] claim, on which
    the middleware panics at its type assertion instead of answering
    401; the state is left as it was. *)
Theorem missing_user_id_panics (t : Time) :
  ∃ tok,
    jws_alg tok = "HS256" ∧
    jws_sig tok = HMACOf "HS256" jwtKey ∧
    jwt_Validate (jws_claims tok) t = None ∧
    jws_claims tok !! "user_id" = None ∧
    ∀ (r : Request) (next : Handler) (w : World),
      Header_Authorization r = text "Bearer " ++ [Tok tok] ->
      now w = t ->
      ∃ reason, authMiddleware jwtKey next r w = (Panicked reason, w).
Proof.
  set (exp := time_Unix (time_Add t (time_Hour * 24))).
  set (claims := <["exp" := JNumber exp]>
                   (<["email" := JString "a@x.com"]> ∅) : gmap string JSON).
  assert (Hexp : claims !! "exp" = Some (JNumber exp))
    by apply lookup_insert_eq.
  assert (Hnbf : claims !! "nbf" = None)
    by (unfold claims; by rewrite !lookup_insert_ne).
  assert (Huid : claims !! "user_id" = None)
    by (unfold claims; by rewrite !lookup_insert_ne).
  assert (Hlt : t < expiry_of exp).
  { pose proof (expiry_window t) as Hw. simpl in Hw. fold exp in Hw.
    unfold time_Hour, time_Second in Hw. lia. }
  exists {| jws_alg := "HS256"; jws_claims := claims;
            jws_sig := HMACOf "HS256" jwtKey |}.
  simpl. repeat (split; [done|]). split.
  { by apply (jwt_Validate_future _ _ exp). }
  split; [done|].
  intros r next w Hhdr <-. eexists.
  eapply (authMiddleware_user_id_unchecked _ exp); [exact Hhdr|..]; simpl;
    try done.
  rewrite !elem_of_cons. auto.
Qed.

End AuthProperties.

(* ===================================================================== *)
(** * The statements at sample inputs                                     *)
(* ===================================================================== *)

Lemma invalid_category_rejected_witness :
  uploadPhotoHandler
    (upload_request "Cat" "cats" "cat.png" "image/png" []) (boot 0) =
    (Responded StatusBadRequest (failure "Invalid category"), boot 0) ∧
  getPhotosByCategoryHandler (vars_request "category" "cats") (boot 0) =
    (Responded StatusBadRequest (failure "Invalid category"), boot 0).
Proof.
  eapply (invalid_category_rejected "cats"
            (upload_request "Cat" "cats" "cat.png" "image/png" [])
            (vars_request "category" "cats")).
  - by_evaluation.
  - reflexivity.
  - vm_compute. reflexivity.
  - vm_compute. reflexivity.
Defined.

Lemma non_image_upload_rejected_witness :
  uploadPhotoHandler notes (boot 0) =
    (Responded StatusBadRequest (failure "File must be an image"), boot 0).
Proof.
  eapply (non_image_upload_rejected notes).
  - reflexivity.
  - by_evaluation.
  - vm_compute. reflexivity.
  - vm_compute. reflexivity.
Defined.

Lemma upload_then_listing_witness :
  ∃ ps w3,
    getPhotosByCategoryHandler (vars_request "category" "photography")
      with_sunset.2 = (Responded StatusOK (listing_of ps), w3) ∧
    ∃ rec, rec ∈ ps ∧
           photo_ID rec = "000102030405060708090a0b0c0d0e0f" ∧
           photo_Filename rec = "000102030405060708090a0b0c0d0e0f.JPG".
Proof.
  eapply (upload_then_listing sunset (vars_request "category" "photography")
            (boot 0) with_sunset.2 with_sunset.2
            (reply_payload with_sunset.1)
            {| photo_ID := "000102030405060708090a0b0c0d0e0f";
               photo_Filename := "000102030405060708090a0b0c0d0e0f.JPG";
               photo_Title := "Sunset";
               photo_Category := "photography";
               photo_URL := "http://localhost:8080/photos/photography/000102030405060708090a0b0c0d0e0f.JPG";
               photo_UploadDate := "1970-01-01T00:00:00Z" |}).
  - vm_compute. reflexivity.
  - vm_compute. reflexivity.
  - reflexivity.
  - vm_compute. reflexivity.
Defined.


Lemma delete_removes_first_match_witness :
  let name := "000102030405060708090a0b0c0d0e0f.JPG" in
  let f := {| IsDir := false; ModTime := 0; Bytes := [Byte.x01] |} in
  let r := vars_request "id" "000102030405060708090a0b0c0d0e0f" in
  ∃ d w',
    fs with_sunset.2 !! "photos/photography" = Some d ∧
    d !! name = Some f ∧
    deletePhotoHandler r with_sunset.2 = (Responded StatusOK deleted, w') ∧
    fs w' = <["photos/photography" := delete name d]> (fs with_sunset.2) ∧
    ((∀ x : string * DirEntry, x ∈ [] ->
        hit "000102030405060708090a0b0c0d0e0f" x = false) ->
     ∃ w'', deletePhotoHandler r w' =
              (Responded StatusNotFound (failure "Photo not found"), w'') ∧
            fs w'' = fs w').
Proof.
  intros name f r.
  destruct (delete_removes_first_match r with_sunset.2
              "000102030405060708090a0b0c0d0e0f") as [_ Hfound].
  - vm_compute. reflexivity.
  - by_evaluation.
  - apply (Hfound [] "photos/photography" name f []).
    + vm_compute. reflexivity.
    + intros x Hx. by apply elem_of_nil in Hx.
    + vm_compute. reflexivity.
Defined.

(** C5, as stated, fails: when a second file has the same stem, the second
    delete of the id answers 200 again, not 404. *)
Lemma second_delete_finds_twin :
  let r := vars_request "id" "abc" in
  (deletePhotoHandler r twins).1 = Responded StatusOK deleted ∧
  (deletePhotoHandler r (deletePhotoHandler r twins).2).1 =
    Responded StatusOK deleted.
Proof. split; vm_compute; reflexivity. Qed.

Lemma login_failures_indistinguishable_witness :
  (@loginHandler "secret" bcrypt72 (json_request bob) (with_alice 0)).1 =
    (@loginHandler "secret" bcrypt72 (json_request mallory) (with_alice 0)).1 ∧
  (@loginHandler "secret" bcrypt72 (json_request mallory) (with_alice 0)).1 =
    Responded StatusUnauthorized (failure "Invalid email or password").
Proof.
  assert (Hus : users (with_alice 0) = [alice_row 0])
    by (vm_compute; reflexivity).
  apply (@login_failures_indistinguishable "secret" bcrypt72
           (json_request bob) (json_request mallory) bob mallory (alice_row 0)
           (with_alice 0)); try reflexivity; try discriminate.
  - intros row. rewrite Hus, list_elem_of_singleton. by intros ->.
  - rewrite Hus. apply list_elem_of_here.
  - intros row. rewrite Hus, list_elem_of_singleton. by intros ->.
Defined.

Lemma register_then_login_witness :
  ∃ w1 account,
    @registerHandler bcrypt72 (json_request alice) (boot 0) =
      (Responded StatusCreated registered, w1) ∧
    users w1 = users (boot 0) ++ [account] ∧
    user_Name account = "A" ∧
    user_Email account = "a@x.com" ∧
    ∀ w2, users w2 = users w1 ->
      ∃ tok w3,
        @loginHandler "secret" bcrypt72 (json_request alice) w2 =
          (Responded StatusOK (logged_in [Tok tok] account), w3) ∧
        jws_claims tok !! "user_id" = Some (JNumber (user_ID account)) ∧
        jws_claims tok !! "email" = Some (JString (user_Email account)).
Proof.
  apply (@register_then_login "secret" bcrypt72 (json_request alice)
           (json_request alice) alice alice "$2a$10$pw" (boot 0));
    try reflexivity; try discriminate.
  intros u Hu. by apply elem_of_nil in Hu.
Defined.

(** C1, as stated, fails: a registration whose password is longer than the
    72 bytes bcrypt accepts answers 500, although its name, email and
    password are non-empty and the store holds no account. *)
Lemma long_password_is_refused :
  creds_Name verbose ≠ "" ∧ creds_Email verbose ≠ "" ∧
  creds_Password verbose ≠ "" ∧ users (boot 0) = [] ∧
  (@registerHandler bcrypt72 (json_request verbose) (boot 0)).1 =
    Responded StatusInternalServerError (failure "Error hashing password").
Proof.
  split; [discriminate|]. split; [discriminate|]. split; [discriminate|].
  split; [reflexivity|]. vm_compute. reflexivity.
Qed.

Lemma token_valid_until_exp_witness :
  let T := 1700000000 * time_Second in
  let expiry := expiry_of (time_Unix (time_Add T (time_Hour * 24))) in
  T + 24 * time_Hour - time_Second < expiry <= T + 24 * time_Hour ∧
  ∃ uid, ∀ (r : Request) (next : Handler) (w' : World),
    Header_Authorization r =
      text "Bearer " ++ Token_ (reply_payload (alice_login T).1) ->
    (now w' < expiry ->
     authMiddleware "secret" next r w' = next (WithContext_userID r uid) w') ∧
    (expiry <= now w' ->
     authMiddleware "secret" next r w' =
       (Responded StatusUnauthorized (failure "Invalid token"), w')).
Proof.
  intros T.
  apply (@token_valid_until_exp "secret" bcrypt72 (json_request alice)
           (with_alice T) (alice_login T).2 (reply_payload (alice_login T).1)
           T).
  - reflexivity.
  - by_evaluation.
  - vm_compute. reflexivity.
Defined.

(** C2, as stated, fails: a token issued half a second past a whole second
    is refused 300 ms before [T + 24h]. *)
Lemma token_refused_before_24h :
  let T := 1700000000 * time_Second + 500000000 in
  let t := T + 24 * time_Hour - 300000000 in
  now (with_alice T) = T ∧
  (∃ payload, (alice_login T).1 = Responded StatusOK payload) ∧
  t < T + 24 * time_Hour ∧
  (authMiddleware "secret" profileHandler
     (bearer_request (reply_token (alice_login T).1))
     (at_time t (alice_login T).2)).1 =
    Responded StatusUnauthorized (failure "Invalid token").
Proof.
  intros T t. split; [reflexivity|]. split.
  - eexists. vm_compute. reflexivity.
  - split; [by_evaluation|]. vm_compute. reflexivity.
Qed.

Lemma unauthenticated_request_stops_at_middleware_witness :
  let T := 1700000000 * time_Second in
  ∃ message, ∀ (next : Handler) (w : World),
    now w = T + 24 * time_Hour ->
    authMiddleware "secret" next
      (bearer_request (reply_token (alice_login T).1)) w =
      (Responded StatusUnauthorized (failure message), w).
Proof.
  intros T.
  apply (unauthenticated_request_stops_at_middleware "secret").
  right. right. exists (issued_token "secret" (alice_row T) T).
  split; [vm_compute; reflexivity|].
  right. right. exists (time_Unix (time_Add T (time_Hour * 24))).
  split; [vm_compute; reflexivity|]. split; [by_evaluation|].
  intros Hzero. by vm_compute in Hzero.
Defined.

Lemma missing_user_id_panics_witness :
  ∃ tok,
    jws_alg tok = "HS256" ∧
    jws_sig tok = HMACOf "HS256" "secret" ∧
    jwt_Validate (jws_claims tok) 0 = None ∧
    jws_claims tok !! "user_id" = None ∧
    ∀ (r : Request) (next : Handler) (w : World),
      Header_Authorization r = text "Bearer " ++ [Tok tok] ->
      now w = 0 ->
      ∃ reason, authMiddleware "secret" next r w = (Panicked reason, w).
Proof. exact (missing_user_id_panics "secret" 0). Defined.

(* ===================================================================== *)
(** * Further properties: registration and login                          *)
(* ===================================================================== *)

Section AccountProperties.

Context (jwtKey : string) `{Bcrypt}.

(** Every path of [registerHandler]. *)
Lemma register_cases (r : Request) (w : World) :
  registerHandler r w =
    match json_Decode (Body_ r) with
    | Err _ =>
        (Responded StatusBadRequest (failure "Invalid request payload"), w)
    | Ok creds =>
        if bool_decide (creds_Name creds = "")
           || bool_decide (creds_Email creds = "")
           || bool_decide (creds_Password creds = "")
        then (Responded StatusBadRequest
                (failure "Name, email, and password are required"), w)
        else
          let w1 := log_call (SQL "CheckEmailExists" (creds_Email creds)) w in
          match stored w (creds_Email creds) with
          | Some _ =>
              (Responded StatusConflict (failure "Email already in use"), w1)
          | None =>
              let w2 := set_entropy_pos (entropy_pos w + 16) w1 in
              match GenerateFromPassword
                      (map (entropy w) (seq (entropy_pos w) 16))
                      (creds_Password creds) bcrypt_DefaultCost with
              | Err _ =>
                  (Responded StatusInternalServerError
                     (failure "Error hashing password"), w2)
              | Ok hashed =>
                  (Responded StatusCreated registered,
                   set_users
                     (users w ++ [{| user_ID := next_rowid w;
                                     user_Name := creds_Name creds;
                                     user_Email := creds_Email creds;
                                     user_Password := hashed;
                                     user_CreatedAt := now w |}])
                     (next_rowid w)
                     (log_call (SQL "CreateUser" (creds_Email creds)) w2))
              end
          end
    end.
Proof.
  unfold registerHandler, serve, bind, call_or, bind.
  destruct (json_Decode (Body_ r)) as [creds|e]; simpl; [|done].
  destruct (bool_decide _ || bool_decide _ || bool_decide _); simpl; [done|].
  rewrite CheckEmailExists_run, stored_existsb. simpl.
  destruct (stored w (creds_Email creds)) as [u|] eqn:Hrow; simpl; [done|].
  rewrite rand_Read_run. cbn [entropy entropy_pos log_call].
  destruct (GenerateFromPassword _ _ _) as [hashed|e]; simpl; [|done].
  rewrite CreateUser_run. cbn [users set_entropy_pos log_call].
  rewrite stored_existsb, Hrow. done.
Qed.

(** The run of [registerHandler] on a complete payload whose email is
    stored. *)
Lemma register_existing_email
    (r : Request) (creds : Credentials) (u : User) (w : World) :
  Body_ r = JSONBody creds ->
  creds_Name creds ≠ "" ->
  creds_Email creds ≠ "" ->
  creds_Password creds ≠ "" ->
  u ∈ users w ->
  user_Email u = creds_Email creds ->
  registerHandler r w =
    (Responded StatusConflict (failure "Email already in use"),
     log_call (SQL "CheckEmailExists" (creds_Email creds)) w).
Proof.
  intros Hbody Hname Hemail Hpw Hin Hu.
  rewrite register_cases, Hbody. simpl.
  rewrite !bool_decide_eq_false_2 by done. simpl.
  destruct (stored w (creds_Email creds)) eqn:Hrow; [done|].
  rewrite stored_None in Hrow. by destruct (Hrow u Hin).
Qed.

(** X1.  A registration with an email the store already holds answers 409
    "Email already in use" after the existence query alone: nothing is
    hashed or inserted. *)
Theorem register_conflict
    (r : Request) (creds : Credentials) (u : User) (w : World) :
  Body_ r = JSONBody creds ->
  creds_Name creds ≠ "" ->
  creds_Email creds ≠ "" ->
  creds_Password creds ≠ "" ->
  u ∈ users w ->
  user_Email u = creds_Email creds ->
  registerHandler r w =
    (Responded StatusConflict (failure "Email already in use"),
     log_call (SQL "CheckEmailExists" (creds_Email creds)) w).
Proof.
  intros Hbody Hname Hemail Hpw Hin Hu.
  by apply register_existing_email with (u := u).
Qed.

(** X2.  [registerHandler] answers 400 exactly when the payload does not
    decode or one of name, email and password is empty, and then it leaves
    the state untouched. *)
Theorem register_bad_request_iff (r : Request) (w : World) :
  (status (registerHandler r w).1 = StatusBadRequest ↔ bad_registration r) ∧
  (bad_registration r -> (registerHandler r w).2 = w).
Proof.
  rewrite register_cases. unfold bad_registration.
  destruct (json_Decode (Body_ r)) as [creds|e]; simpl; [|done].
  destruct (decide (creds_Name creds = "")) as [Hn|Hn].
  { rewrite (bool_decide_eq_true_2 _ Hn). simpl. tauto. }
  destruct (decide (creds_Email creds = "")) as [He|He].
  { rewrite (bool_decide_eq_true_2 _ He), orb_true_r. simpl. tauto. }
  destruct (decide (creds_Password creds = "")) as [Hp|Hp].
  { rewrite (bool_decide_eq_true_2 _ Hp), orb_true_r. simpl. tauto. }
  rewrite !bool_decide_eq_false_2 by done. simpl.
  split; [|tauto].
  destruct (stored w _); simpl; [split; [done|tauto]|].
  destruct (GenerateFromPassword _ _ _); simpl; (split; [done|tauto]).
Qed.

(** X3.  [registerHandler] answers 201 exactly when it appends one row, and
    that row carries the submitted name and email, a fresh id and, as
    password, the hash bcrypt returned for the submitted password; on every
    other path the table is unchanged. *)
Theorem register_created_iff (r : Request) (w : World) :
  (status (registerHandler r w).1 = StatusCreated ->
   ∃ creds hashed,
     Body_ r = JSONBody creds ∧
     GenerateFromPassword (map (entropy w) (seq (entropy_pos w) 16))
       (creds_Password creds) bcrypt_DefaultCost = Ok hashed ∧
     CompareHashAndPassword hashed (creds_Password creds) = true ∧
     users (registerHandler r w).2 =
       users w ++ [{| user_ID := next_rowid w;
                      user_Name := creds_Name creds;
                      user_Email := creds_Email creds;
                      user_Password := hashed;
                      user_CreatedAt := now w |}]) ∧
  (status (registerHandler r w).1 ≠ StatusCreated ->
   users (registerHandler r w).2 = users w).
Proof.
  rewrite register_cases.
  destruct (Body_ r) as [|creds| |] eqn:Hbody; simpl; try done.
  destruct (bool_decide _ || bool_decide _ || bool_decide _); simpl; [done|].
  destruct (stored w _); simpl; [done|].
  destruct (GenerateFromPassword _ _ _) as [hashed|e] eqn:Hhash; simpl;
    [|done].
  split; [|done]. intros _. exists creds, hashed.
  repeat split; try done. by eapply Compare_Generate.
Qed.

(** X4.  [registerHandler] keeps the accounts distinct: if no two rows share
    an email or an id before a request, none do after it. *)
Theorem register_keeps_accounts_distinct (r : Request) (w : World) :
  accounts_distinct w -> accounts_distinct (registerHandler r w).2.
Proof.
  intros [Hemails Hids]. rewrite register_cases. unfold accounts_distinct.
  destruct (json_Decode (Body_ r)) as [creds|e]; simpl; [|done].
  destruct (bool_decide _ || bool_decide _ || bool_decide _); simpl; [done|].
  destruct (stored w (creds_Email creds)) eqn:Hrow; simpl; [done|].
  destruct (GenerateFromPassword _ _ _) as [hashed|e]; simpl; [|done].
  rewrite !map_app. simpl. rewrite stored_None in Hrow. split.
  - apply NoDup_app. split; [done|]. split; [|apply NoDup_singleton].
    intros email Hin Hnew. apply list_elem_of_singleton in Hnew as ->.
    apply list_elem_of_In, in_map_iff in Hin as (u & Heq & Hu).
    by apply (Hrow u); [apply list_elem_of_In|].
  - apply NoDup_app. split; [done|]. split; [|apply NoDup_singleton].
    intros id Hin Hnew. apply list_elem_of_singleton in Hnew as ->.
    apply list_elem_of_In, in_map_iff in Hin as (u & Heq & Hu).
    apply list_elem_of_In, next_rowid_above in Hu. lia.
Qed.

(** X5.  After a registration that answered 201, every further
    registration with the same email answers 409, whatever name and
    password it carries. *)
Theorem second_registration_conflicts
    (first second : Request) (c1 c2 : Credentials) (payload : Response)
    (w w1 : World) :
  Body_ first = JSONBody c1 ->
  registerHandler first w = (Responded StatusCreated payload, w1) ->
  Body_ second = JSONBody c2 ->
  creds_Name c2 ≠ "" -> creds_Password c2 ≠ "" ->
  creds_Email c2 = creds_Email c1 ->
  (registerHandler second w1).1 =
    Responded StatusConflict (failure "Email already in use") ∧
  users (registerHandler second w1).2 = users w1.
Proof.
  intros Hb1 Hreg Hb2 Hname Hpw Hemail.
  rewrite register_cases, Hb1 in Hreg. simpl in Hreg.
  destruct (decide (creds_Email c1 = "")) as [He|He].
  { rewrite (bool_decide_eq_true_2 _ He), orb_true_r in Hreg. simpl in Hreg.
    by injection Hreg. }
  destruct (bool_decide _ || bool_decide _ || bool_decide _); [by injection Hreg|].
  destruct (stored w _); simpl in Hreg; [by injection Hreg|].
  destruct (GenerateFromPassword _ _ _) as [hashed|e]; simpl in Hreg;
    [|by injection Hreg].
  injection Hreg as _ <-.
  erewrite (register_existing_email second c2); [done|done|done|congruence|done| |].
  - simpl. apply elem_of_app. right. apply list_elem_of_here.
  - simpl. congruence.
Qed.

(** Every path of [loginHandler]. *)
Lemma login_cases (r : Request) (w : World) :
  loginHandler jwtKey r w =
    match json_Decode (Body_ r) with
    | Err _ =>
        (Responded StatusBadRequest (failure "Invalid request payload"), w)
    | Ok creds =>
        if bool_decide (creds_Email creds = "")
           || bool_decide (creds_Password creds = "")
        then (Responded StatusBadRequest
                (failure "Email and password are required"), w)
        else
          let w1 := log_call (SQL "GetUserByEmail" (creds_Email creds)) w in
          match stored w (creds_Email creds) with
          | None =>
              (Responded StatusUnauthorized
                 (failure "Invalid email or password"), w1)
          | Some u =>
              let w2 :=
                set_stdout
                  (stdout w ++
                   ["Stored password hash: " +:+ user_Password u;
                    "Provided password: " +:+ creds_Password creds]) w1 in
              if CompareHashAndPassword (user_Password u)
                   (creds_Password creds)
              then (Responded StatusOK
                      (logged_in [Tok (issued_token jwtKey u (now w))] u), w2)
              else (Responded StatusUnauthorized
                      (failure "Invalid email or password"), w2)
          end
    end.
Proof.
  unfold loginHandler, serve, bind, call_or, bind.
  destruct (json_Decode (Body_ r)) as [creds|e]; simpl; [|done].
  destruct (bool_decide _ || bool_decide _); simpl; [done|].
  rewrite GetUserByEmail_run.
  destruct (stored w (creds_Email creds)) as [u|]; simpl; [|done].
  rewrite !fmt_Println_run. simpl.
  rewrite <- app_assoc. simpl.
  by destruct (CompareHashAndPassword _ _).
Qed.

(** X6.  [loginHandler] answers 200 exactly when the payload decodes, email
    and password are non-empty, the email is stored and the stored hash
    accepts the password: no token is issued on any other path. *)
Theorem login_ok_iff (r : Request) (w : World) :
  status (loginHandler jwtKey r w).1 = StatusOK ↔ good_login r w.
Proof.
  rewrite login_cases. unfold good_login. split.
  - destruct (Body_ r) as [|creds| |] eqn:Hbody; simpl; try done.
    destruct (decide (creds_Email creds = "")) as [He|He].
    { by rewrite (bool_decide_eq_true_2 _ He). }
    destruct (decide (creds_Password creds = "")) as [Hp|Hp].
    { by rewrite (bool_decide_eq_true_2 _ Hp), orb_true_r. }
    rewrite !bool_decide_eq_false_2 by done. simpl.
    destruct (stored w _) as [u|] eqn:Hrow; simpl; [|done].
    destruct (CompareHashAndPassword _ _) eqn:Hcmp; simpl; [|done].
    intros _. by exists creds, u.
  - intros (creds & u & Hbody & He & Hp & Hrow & Hcmp).
    rewrite Hbody. simpl. rewrite !bool_decide_eq_false_2 by done. simpl.
    by rewrite Hrow, Hcmp.
Qed.

(** X7.  On every login that answers 200, the token is signed under HS256
    with the server key and its [user_id] and [email] claims are the id and
    the email of the user summary in the same reply. *)
Theorem login_reply_consistent
    (r : Request) (w w1 : World) (payload : Response) :
  loginHandler jwtKey r w = (Responded StatusOK payload, w1) ->
  ∃ tok summary,
    Token_ payload = [Tok tok] ∧ User_ payload = Some summary ∧
    jws_alg tok = "HS256" ∧ jws_sig tok = HMACOf "HS256" jwtKey ∧
    jws_claims tok !! "user_id" = Some (JNumber (ur_ID summary)) ∧
    jws_claims tok !! "email" = Some (JString (ur_Email summary)) ∧
    dom (jws_claims tok) = {["user_id"; "email"; "exp"]}.
Proof.
  intros Hlogin. rewrite login_cases in Hlogin.
  destruct (json_Decode (Body_ r)) as [creds|e]; [|by injection Hlogin].
  destruct (bool_decide _ || bool_decide _); [by injection Hlogin|].
  simpl in Hlogin.
  destruct (stored w _) as [u|]; [|by injection Hlogin].
  destruct (CompareHashAndPassword _ _); [|by injection Hlogin].
  injection Hlogin as <- <-. eexists _, _. simpl.
  repeat split; reflexivity.
Qed.

(** X8.  A login with a stored email appends two lines to the standard
    output, the stored hash and the submitted password in clear, whether or
    not the password is right. *)
Theorem login_prints_password
    (r : Request) (creds : Credentials) (u : User) (w : World) :
  Body_ r = JSONBody creds ->
  creds_Email creds ≠ "" ->
  creds_Password creds ≠ "" ->
  stored w (creds_Email creds) = Some u ->
  stdout (loginHandler jwtKey r w).2 =
    stdout w ++ ["Stored password hash: " +:+ user_Password u;
                 "Provided password: " +:+ creds_Password creds].
Proof.
  intros Hbody He Hp Hrow. rewrite login_cases, Hbody. simpl.
  rewrite !bool_decide_eq_false_2 by done. simpl. rewrite Hrow.
  by destruct (CompareHashAndPassword _ _).
Qed.

(** X9.  No login changes the accounts, the id counter, the photo tree,
    the clock or the entropy position. *)
Theorem login_changes_no_data (r : Request) (w : World) :
  let w' := (loginHandler jwtKey r w).2 in
  users w' = users w ∧ users_seq w' = users_seq w ∧ fs w' = fs w ∧
  now w' = now w ∧ entropy_pos w' = entropy_pos w.
Proof.
  rewrite login_cases.
  destruct (json_Decode (Body_ r)) as [creds|e]; simpl; [|done].
  destruct (bool_decide _ || bool_decide _); simpl; [done|].
  destruct (stored w _) as [u|]; simpl; [|done].
  by destruct (CompareHashAndPassword _ _).
Qed.

(** X10.  [generateJWT] changes nothing and signs three claims; [exp] is
    the Unix time of issue plus 86400 seconds. *)
Theorem generateJWT_claims (user : User) (w : World) :
  ∃ tok,
    generateJWT jwtKey user w = (Next (Ok [Tok tok]), w) ∧
    jws_claims tok !! "exp" = Some (JNumber (time_Unix (now w) + 86400)) ∧
    jws_claims tok !! "user_id" = Some (JNumber (user_ID user)) ∧
    jws_claims tok !! "email" = Some (JString (user_Email user)) ∧
    size (jws_claims tok) = 3%nat.
Proof.
  exists (issued_token jwtKey user (now w)). split; [reflexivity|]. simpl.
  unfold issued_claims. rewrite time_Unix_add_day.
  repeat split; try reflexivity.
Qed.

End AccountProperties.

(* ===================================================================== *)
(** * Further properties: the middleware and the profile                  *)
(* ===================================================================== *)


Section MiddlewareProperties.

Context (jwtKey : string) `{Bcrypt}.







End MiddlewareProperties.

(* ===================================================================== *)
(** * Further properties: identifiers and uploads                         *)
(* ===================================================================== *)

Lemma entropy_window_length (w : World) :
  length (map (entropy w) (seq (entropy_pos w) 16)) = 16%nat.
Proof. by rewrite length_map, length_seq. Qed.

Lemma fresh_id_length (w : World) : String.length (fresh_id w) = 32%nat.
Proof.
  unfold fresh_id. by rewrite hex_EncodeToString_length, entropy_window_length.
Qed.

Lemma generated_name_nonempty (w : World) (ext : string) :
  fresh_id w +:+ ext ≠ "".
Proof.
  intros Heq. apply (f_equal String.length) in Heq.
  pose proof (fresh_id_length w) as Hlen.
  destruct (fresh_id w); simpl in *; [lia|done].
Qed.

(** X15.  [generateID] returns 32 lower-case hexadecimal digits and moves
    the entropy position on by the 16 bytes it read; nothing else changes. *)
Theorem generateID_format (w : World) :
  ∃ id,
    generateID w = (Next id, set_entropy_pos (entropy_pos w + 16) w) ∧
    String.length id = 32%nat ∧
    Forall is_hex (chars id).
Proof.
  exists (fresh_id w). rewrite generateID_run. split; [done|].
  split; [apply fresh_id_length | apply hex_EncodeToString_is_hex].
Qed.

(** X16.  Two calls of [generateID] return the same identifier only if they
    read the same 16 random bytes. *)
Theorem generateID_collision (w w' : World) (id : string) :
  (generateID w).1 = Next id ->
  (generateID w').1 = Next id ->
  map (entropy w) (seq (entropy_pos w) 16) =
    map (entropy w') (seq (entropy_pos w') 16).
Proof.
  intros H1 H2. rewrite generateID_run in H1, H2. cbn [fst] in H1, H2.
  assert (Heq : fresh_id w = fresh_id w') by congruence.
  by apply hex_EncodeToString_inj.
Qed.


(** X18.  When the directory of the category is missing, an upload that
    passed every check answers 500 "Failed to create destination file" and
    the photo tree stays as it was. *)
Theorem upload_without_directory
    (r : Request) (form : Form) (handler : FileHeader) (w : World) :
  Body_ r = MultipartBody form ->
  FormValue form "category" ∈ category_names ->
  FormFile form "photo" = Ok handler ->
  strings_HasPrefix (Header_Get handler "Content-Type") "image/" = true ->
  fs w !! filepath_Join "photos" (FormValue form "category") = None ->
  (uploadPhotoHandler r w).1 =
    Responded StatusInternalServerError
      (failure "Failed to create destination file") ∧
  fs (uploadPhotoHandler r w).2 = fs w.
Proof.
  intros Hbody Hcat Hfile Htype Hdir.
  pose proof (generated_name_nosep (fresh_id w) (fh_Filename handler)
                (hex_EncodeToString_plain _)) as Hname.
  unfold uploadPhotoHandler, serve, bind, call_or, bind. rewrite Hbody. simpl.
  rewrite validCategories_spec, bool_decide_eq_true_2 by done. simpl.
  rewrite Hfile. simpl. rewrite Htype. simpl.
  rewrite generateID_run, os_Create_run by done. simpl.
  by rewrite Hdir.
Qed.

(* ===================================================================== *)
(** * Further properties: listings                                        *)
(* ===================================================================== *)

Lemma entry_le_trans : Transitive entry_le.
Proof. intros a b c. unfold entry_le. apply transitivity. Qed.

Lemma entry_le_total : Total entry_le.
Proof. intros a b. unfold entry_le. apply total, _. Qed.

(** The listing loop maps the regular entries, in their order. *)
Lemma photos_loop_filter (r : Request) (category : string)
    (files : list DirEntry) :
  photos_loop r category files [] =
    map (fun e => listed r category e.1 e.2) (List.filter regular files).
Proof.
  induction files as [|[name f] files IH]; simpl; [done|].
  unfold regular at 1. simpl. destruct (IsDir f); simpl; [done|].
  by rewrite photos_loop_app, IH.
Qed.

Lemma listed_names (r : Request) (category : string) (files : list DirEntry) :
  map photo_Filename
    (map (fun e => listed r category e.1 e.2) (List.filter regular files)) =
  map fst (List.filter regular files).
Proof. rewrite map_map. by apply map_ext. Qed.

Lemma StronglySorted_filter_names (P : DirEntry -> bool)
    (files : list DirEntry) :
  StronglySorted entry_le files ->
  StronglySorted String.le (map fst (List.filter P files)).
Proof.
  induction 1 as [|e files Hsorted IH Hall]; simpl; [constructor|].
  destruct (P e); simpl; [|done]. constructor; [done|].
  apply Forall_forall. intros name Hin.
  apply list_elem_of_In, in_map_iff in Hin as (e' & <- & Hin').
  apply filter_In in Hin' as [Hin' _].
  rewrite Forall_forall in Hall. by apply Hall, list_elem_of_In.
Qed.

Lemma NoDup_filter_names (P : DirEntry -> bool) (files : list DirEntry) :
  NoDup (map fst files) -> NoDup (map fst (List.filter P files)).
Proof.
  induction files as [|e files IH]; simpl; [done|].
  intros [Hnotin Hnd]%NoDup_cons. destruct (P e); simpl; [|by apply IH].
  apply NoDup_cons. split; [|by apply IH].
  intros Hin. apply Hnotin.
  apply list_elem_of_In, in_map_iff in Hin as (e' & Heq & Hin').
  apply filter_In in Hin' as [Hin' _].
  apply list_elem_of_In, in_map_iff. by exists e'.
Qed.

Lemma map_is_fmap {A B} (f : A -> B) (l : list A) : map f l = f <$> l.
Proof. induction l as [|a l IH]; simpl; [done|]. by rewrite IH. Qed.

Lemma NoDup_entry_names (d : gmap string File) :
  NoDup (map fst (merge_sort entry_le (map_to_list d))).
Proof.
  rewrite map_is_fmap, merge_sort_Permutation.
  apply NoDup_fst_map_to_list.
Qed.

(** X19.  A listing of a valid category whose directory exists answers 200
    after the one [ReadDir]; its records are those of the regular files of
    the directory (subdirectories are skipped), one per file, in ascending
    order of filename. *)
Theorem listing_sorted_regular_files
    (r : Request) (d : gmap string File) (w : World) :
  let category := default "" (Vars r !! "category") in
  category ∈ category_names ->
  fs w !! filepath_Join "photos" category = Some d ->
  ∃ ps,
    getPhotosByCategoryHandler r w =
      (Responded StatusOK (listing_of ps),
       log_call (FS "ReadDir" (filepath_Join "photos" category)) w) ∧
    (∀ name, name ∈ map photo_Filename ps ↔
             ∃ f, d !! name = Some f ∧ IsDir f = false) ∧
    StronglySorted String.le (map photo_Filename ps) ∧
    NoDup (map photo_Filename ps).
Proof.
  intros category Hcat Hdir. eexists. split; [by apply listing_run|].
  rewrite photos_loop_filter, listed_names. split; [|split].
  - intros name. rewrite list_elem_of_In, in_map_iff. split.
    + intros ([n f] & <- & [Hin Hreg]%filter_In). exists f.
      apply list_elem_of_In, elem_of_listing in Hin. split; [done|].
      unfold regular in Hreg. simpl in *. by apply negb_true_iff.
    + intros (f & Hf & Hreg). exists (name, f). split; [done|].
      apply filter_In. split.
      * by apply list_elem_of_In, elem_of_listing.
      * unfold regular. simpl. by rewrite Hreg.
  - apply StronglySorted_filter_names, StronglySorted_merge_sort;
      [apply entry_le_trans | apply entry_le_total].
  - apply NoDup_filter_names, NoDup_entry_names.
Qed.

(** The run of [getPhotosByCategoryHandler] when [ReadDir] fails. *)
Lemma listing_ReadDir_fails (r : Request) (w : World) :
  let category := default "" (Vars r !! "category") in
  category ∈ category_names ->
  fs w !! filepath_Join "photos" category = None ->
  getPhotosByCategoryHandler r w =
    (Responded StatusInternalServerError (failure "Failed to read directory"),
     log_call (FS "ReadDir" (filepath_Join "photos" category)) w).
Proof.
  intros category Hcat Hdir.
  unfold getPhotosByCategoryHandler, serve, bind, call_or, bind.
  fold category. rewrite validCategories_spec, bool_decide_eq_true_2 by done.
  simpl. by rewrite os_ReadDir_run, Hdir.
Qed.

(** X20.  A listing of a valid category whose directory is missing answers
    500 "Failed to read directory" after the one [ReadDir], which is the
    only thing the run records. *)
Theorem listing_without_directory (r : Request) (w : World) :
  let category := default "" (Vars r !! "category") in
  category ∈ category_names ->
  fs w !! filepath_Join "photos" category = None ->
  getPhotosByCategoryHandler r w =
    (Responded StatusInternalServerError (failure "Failed to read directory"),
     log_call (FS "ReadDir" (filepath_Join "photos" category)) w).
Proof.
  intros category Hcat Hdir. by apply listing_ReadDir_fails.
Qed.

(* ===================================================================== *)
(** * Further properties: deletion composed with upload and listing       *)
(* ===================================================================== *)



(** X22.  Every record a listing shows can be deleted by its id: a delete
    of that id answers 200. *)
Theorem listed_record_can_be_deleted
    (listing r : Request) (ps : list PhotoResponse) (rec : PhotoResponse)
    (w w1 : World) :
  names_ok (fs w) ->
  getPhotosByCategoryHandler listing w =
    (Responded StatusOK (listing_of ps), w1) ->
  rec ∈ ps ->
  default "" (Vars r !! "id") = photo_ID rec ->
  (deletePhotoHandler r w).1 = Responded StatusOK deleted.
Proof.
  intros Hok Hlist Hrec Hid.
  set (category := default "" (Vars listing !! "category")) in *.
  destruct (decide (category ∈ category_names)) as [Hcat|Hcat].
  2:{ unfold getPhotosByCategoryHandler, serve, bind in Hlist.
      fold category in Hlist.
      rewrite validCategories_spec, bool_decide_eq_false_2 in Hlist by done.
      by injection Hlist. }
  destruct (fs w !! filepath_Join "photos" category) as [d|] eqn:Hd.
  2:{ rewrite (listing_ReadDir_fails listing w Hcat Hd) in Hlist.
      by injection Hlist. }
  rewrite (listing_run listing w d Hcat Hd) in Hlist.
  injection Hlist as <- _.
  apply elem_of_photos_loop in Hrec as (name & f & Hin & Hreg & ->).
  apply elem_of_listing in Hin. simpl in Hid.
  destruct (find (hit (default "" (Vars r !! "id")))
              (scan_order (fs w) categories)) as [[dir' [n' f']]|] eqn:Hfind.
  - destruct (delete_found r w dir' n' f' Hok Hfind)
      as (d' & w' & _ & _ & -> & _). done.
  - eapply find_none in Hfind.
    2:{ apply list_elem_of_In.
        apply (elem_of_scan_order _ _ (filepath_Join "photos" category) name f).
        by exists category, d. }
    unfold hit in Hfind. simpl in Hfind.
    rewrite Hreg, Hid in Hfind. simpl in Hfind.
    by rewrite bool_decide_eq_true_2 in Hfind.
Qed.

(** An upload that answered 201 did not write over a subdirectory. *)
Lemma upload_created_not_dir
    (r : Request) (form : Form) (handler : FileHeader)
    (d : gmap string File) (w w1 : World) (payload : Response) :
  uploadPhotoHandler r w = (Responded StatusCreated payload, w1) ->
  Body_ r = MultipartBody form ->
  FormFile form "photo" = Ok handler ->
  fs w !! filepath_Join "photos" (FormValue form "category") = Some d ->
  from_option IsDir false
    (d !! (fresh_id w +:+ filepath_Ext (fh_Filename handler))) = false.
Proof.
  intros Hup Hbody Hfile Hdir. revert Hup.
  unfold uploadPhotoHandler, serve, bind, call_or, bind. rewrite Hbody. simpl.
  destruct (negb _); simpl; [by intros [=]|].
  rewrite Hfile. simpl.
  destruct (negb _); simpl; [by intros [=]|].
  rewrite generateID_run.
  pose proof (generated_name_nosep (fresh_id w) (fh_Filename handler)
                (hex_EncodeToString_plain _)) as Hname.
  rewrite os_Create_run by done. simpl. rewrite Hdir.
  rewrite bool_decide_eq_false_2 by apply generated_name_nonempty. simpl.
  by destruct (from_option IsDir false _); [intros [=]|].
Qed.

(** X23.  Upload, then delete the returned id: when no file had that stem
    before, the delete answers 200 and the photo tree is what it was before
    the upload; a second delete of the id answers 404. *)
Theorem upload_then_delete
    (upload r : Request) (p : PhotoResponse) (w w1 : World) :
  names_ok (fs w) ->
  uploadPhotoHandler upload w = (Responded StatusCreated (uploaded p), w1) ->
  default "" (Vars r !! "id") = photo_ID p ->
  (∀ x, x ∈ scan_order (fs w) categories -> hit (photo_ID p) x = false) ->
  ∃ w2,
    deletePhotoHandler r w1 = (Responded StatusOK deleted, w2) ∧
    fs w2 = fs w ∧
    (deletePhotoHandler r w2).1 =
      Responded StatusNotFound (failure "Photo not found").
Proof.
  intros Hok Hup Hid Hfresh.
  pose proof (upload_keeps_names_ok upload w Hok) as Hok1.
  rewrite Hup in Hok1. simpl in Hok1.
  pose proof Hup as Hflag.
  apply upload_created_inv in Hup
    as (form & handler & d & Hbody & Hfile & Hcat & Hd & Hfs1 & Hp).
  apply (upload_created_not_dir _ form handler d) in Hflag; [|done..].
  injection Hp as ->. cbn [photo_ID photo_Filename photo_Category] in *.
  set (name := fresh_id w +:+ filepath_Ext (fh_Filename handler)) in *.
  set (dir := filepath_Join "photos" (FormValue form "category")) in *.
  set (file := {| IsDir := false; ModTime := now w;
                  Bytes := fh_Content handler |}) in *.
  assert (Hstem : stem name = fresh_id w).
  { unfold stem, name.
    rewrite filepath_Ext_generated by apply hex_EncodeToString_plain.
    apply strings_TrimSuffix_app. }
  assert (Hfree : d !! name = None).
  { destruct (d !! name) as [g|] eqn:Hg; [|done]. simpl in Hflag.
    assert (Hhit : hit (fresh_id w) (dir, (name, g)) = true).
    { unfold hit. simpl. by rewrite Hflag, Hstem, bool_decide_eq_true_2. }
    rewrite Hfresh in Hhit; [done|].
    apply elem_of_scan_order. by exists (FormValue form "category"), d. }
  assert (Hnew : (dir, (name, file)) ∈ scan_order (fs w1) categories).
  { apply elem_of_scan_order. exists (FormValue form "category"), (<[name := file]> d).
    split; [done|]. split; [done|]. rewrite Hfs1, lookup_insert_eq.
    split; [done|]. apply lookup_insert_eq. }
  assert (Hold : ∀ x, x ∈ scan_order (fs w1) categories ->
                      x = (dir, (name, file)) ∨
                      x ∈ scan_order (fs w) categories).
  { intros [dir' [n g]] Hx.
    apply elem_of_scan_order in Hx as (c & d' & Hc & Hdir' & Hd' & Hg).
    rewrite Hfs1 in Hd'. destruct (decide (dir' = dir)) as [->|Hne].
    - rewrite lookup_insert_eq in Hd'. injection Hd' as <-.
      destruct (decide (n = name)) as [->|Hn].
      + rewrite lookup_insert_eq in Hg. injection Hg as <-. by left.
      + rewrite lookup_insert_ne in Hg by done. right.
        apply elem_of_scan_order. by exists c, d.
    - rewrite lookup_insert_ne in Hd' by done. right.
      apply elem_of_scan_order. by exists c, d'. }
  destruct (find (hit (default "" (Vars r !! "id")))
              (scan_order (fs w1) categories)) as [x|] eqn:Hfind.
  2:{ eapply find_none in Hfind; [|by apply list_elem_of_In].
      unfold hit in Hfind. simpl in Hfind.
      by rewrite Hstem, Hid, bool_decide_eq_true_2 in Hfind. }
  pose proof Hfind as Hx. apply find_some in Hx as [Hx Hhit].
  rewrite Hid in Hhit.
  destruct (Hold x) as [-> | Hxold]; [by apply list_elem_of_In| |].
  2:{ by rewrite (Hfresh x Hxold) in Hhit. }
  destruct (delete_found r w1 dir name file Hok1 Hfind)
    as (d1 & w2 & Hd1 & _ & Hrun & Hfs2).
  rewrite Hfs1, lookup_insert_eq in Hd1. injection Hd1 as <-.
  assert (Hback : fs w2 = fs w).
  { rewrite Hfs2, Hfs1, insert_insert_eq, delete_insert_id by done.
    by apply insert_id. }
  exists w2. split; [done|]. split; [done|].
  destruct (delete_not_found r w2) as (w3 & -> & _); [|done].
  apply find_no_hit. rewrite Hback, Hid. exact Hfresh.
Qed.

(* ===================================================================== *)
(** * Further properties: start-up, CORS and separation of the data       *)
(* ===================================================================== *)

Lemma init_loop_lookup (cats : list string)
    (t : gmap string (gmap string File)) (path : string) :
  foldr (fun category t =>
           let categoryPath := filepath_Join "photos" category in
           match t !! categoryPath with
           | None => <[categoryPath := ∅]> t
           | Some _ => t
           end) t cats !! path =
    match t !! path with
    | Some d => Some d
    | None =>
        if bool_decide (path ∈ map (filepath_Join "photos") cats)
        then Some ∅ else None
    end.
Proof.
  revert path. induction cats as [|c cats IH]; intros path; simpl.
  { by destruct (t !! path). }
  simpl in IH.
  destruct (foldr _ t cats !! filepath_Join "photos" c) as [d0|] eqn:Hc.
  - rewrite IH. destruct (t !! path) as [d|] eqn:Ht; [done|].
    destruct (decide (path = filepath_Join "photos" c)) as [->|Hne].
    + rewrite IH, Ht in Hc.
      rewrite (bool_decide_eq_true_2 (_ ∈ _ :: _)) by apply list_elem_of_here.
      by case_bool_decide.
    + case_bool_decide as Hin.
      * rewrite bool_decide_eq_true_2; [done|]. by apply list_elem_of_further.
      * rewrite bool_decide_eq_false_2; [done|].
        intros [?|?]%elem_of_cons; done.
  - destruct (decide (path = filepath_Join "photos" c)) as [->|Hne].
    + rewrite lookup_insert_eq. rewrite IH in Hc.
      destruct (t !! filepath_Join "photos" c); [done|].
      by rewrite bool_decide_eq_true_2 by apply list_elem_of_here.
    + rewrite lookup_insert_ne by done. rewrite IH.
      destruct (t !! path); [done|].
      case_bool_decide as Hin.
      * rewrite bool_decide_eq_true_2; [done|]. by apply list_elem_of_further.
      * rewrite bool_decide_eq_false_2; [done|].
        intros [?|?]%elem_of_cons; done.
Qed.


(** X25.  Once [initPhotoDirectories] has run, a listing of a valid
    category never fails to read its directory: it answers 200. *)
Theorem listing_after_init
    (r : Request) (t : gmap string (gmap string File)) (w : World) :
  fs w = initPhotoDirectories t ->
  default "" (Vars r !! "category") ∈ category_names ->
  ∃ ps w',
    getPhotosByCategoryHandler r w = (Responded StatusOK (listing_of ps), w').
Proof.
  intros Hfs Hcat.
  set (category := default "" (Vars r !! "category")) in *.
  assert (Hdir : is_Some (fs w !! filepath_Join "photos" category)).
  { rewrite Hfs. unfold initPhotoDirectories. rewrite init_loop_lookup.
    destruct (t !! _); [by eexists|].
    rewrite bool_decide_eq_true_2; [by eexists|].
    apply list_elem_of_In, in_map. by apply list_elem_of_In. }
  destruct Hdir as [d Hd]. eexists _, _. by apply listing_run.
Qed.

(** X26.  Under [corsMiddleware] an OPTIONS request is answered with a
    bare 200 and the three CORS headers before the next handler runs, so a
    preflight to a protected route needs no token and changes nothing;
    with any other method the protected route still answers 401 to a
    request without Authorization header, with the same headers set. *)
Theorem preflight_skips_authentication
    (key : string) (next : Handler) (r : MethodRequest) (w : World) :
  (req_Method r = "OPTIONS" ->
   corsMiddleware (authMiddleware key next) r w =
     ((cors_headers, Bare StatusOK), w)) ∧
  (req_Method r ≠ "OPTIONS" ->
   Header_Authorization (req r) = [] ->
   corsMiddleware (authMiddleware key next) r w =
     ((cors_headers,
       Passed (Responded StatusUnauthorized
                 (failure "Authorization header required"))), w)).
Proof.
  unfold corsMiddleware. split.
  - intros Hm. by rewrite bool_decide_eq_true_2.
  - intros Hm Hhdr. rewrite bool_decide_eq_false_2 by done.
    unfold authMiddleware, serve, bind.
    by rewrite bool_decide_eq_true_2.
Qed.

Lemma scan_categories_users (cats : list string) (id found : string)
    (w : World) :
  ∃ res w', scan_categories cats id found w = (Next res, w') ∧
            users w' = users w.
Proof.
  revert found w. induction cats as [|c cats IH]; intros found w; simpl.
  { by eexists _, _. }
  unfold bind. rewrite os_ReadDir_run.
  destruct (fs w !! _) as [d|]; simpl.
  - destruct (bool_decide _); [by eexists _, _|].
    destruct (IH (scan_files (filepath_Join "photos" c) id
                    (merge_sort entry_le (map_to_list d)) found)
                (log_call (FS "ReadDir" (filepath_Join "photos" c)) w))
      as (res & w' & -> & Hus).
    by eexists _, _.
  - destruct (IH found (log_call (FS "ReadDir" (filepath_Join "photos" c)) w))
      as (res & w' & -> & Hus).
    by eexists _, _.
Qed.

Section Separation.

Context (jwtKey : string) `{Bcrypt}.

(** X27.  The photo handlers never change the accounts, and the account
    handlers never change the photo tree. *)
Theorem handlers_keep_data_apart (r : Request) (w : World) :
  users (uploadPhotoHandler r w).2 = users w ∧
  users (getPhotosByCategoryHandler r w).2 = users w ∧
  users (deletePhotoHandler r w).2 = users w ∧
  fs (registerHandler r w).2 = fs w ∧
  fs (loginHandler jwtKey r w).2 = fs w ∧
  fs (profileHandler r w).2 = fs w.
Proof.
  repeat split.
  - unfold uploadPhotoHandler, serve, bind, call_or, bind.
    destruct (Body_ r) as [| |form|]; simpl; try done.
    destruct (negb _); simpl; [done|].
    destruct (FormFile form "photo") as [handler|]; simpl; [|done].
    destruct (negb _); simpl; [done|].
    rewrite generateID_run.
    pose proof (generated_name_nosep (fresh_id w) (fh_Filename handler)
                  (hex_EncodeToString_plain _)) as Hname.
    rewrite os_Create_run by done. simpl.
    destruct (fs w !! _) as [d|]; simpl; [|done].
    destruct (bool_decide _ || _); simpl; [done|].
    rewrite io_Copy_run by done. simpl.
    rewrite lookup_insert_eq. simpl. by rewrite lookup_insert_eq.
  - unfold getPhotosByCategoryHandler, serve, bind, call_or, bind.
    destruct (negb _); simpl; [done|].
    rewrite os_ReadDir_run. by destruct (fs w !! _).
  - unfold deletePhotoHandler, serve, bind, call_or, bind.
    destruct (scan_categories_users categories (default "" (Vars r !! "id"))
                "" w) as (res & w' & -> & Hus).
    destruct (bool_decide (res = "")); simpl; [done|].
    destruct (os_Remove_frame res w') as (res' & w'' & -> & Hus').
    destruct res'; simpl; congruence.
  - rewrite register_cases.
    destruct (json_Decode (Body_ r)) as [creds|e]; simpl; [|done].
    destruct (bool_decide _ || bool_decide _ || bool_decide _); simpl; [done|].
    destruct (stored w _); simpl; [done|].
    by destruct (GenerateFromPassword _ _ _).
  - rewrite login_cases.
    destruct (json_Decode (Body_ r)) as [creds|e]; simpl; [|done].
    destruct (bool_decide _ || bool_decide _); simpl; [done|].
    destruct (stored w _) as [u|]; simpl; [|done].
    by destruct (CompareHashAndPassword _ _).
  - unfold profileHandler, serve, bind, call_or, bind.
    destruct (Context_userID r) as [id|]; simpl; [|done].
    rewrite GetUserByID_run. by destruct (stored_by_id w id).
Qed.

End Separation.

(* ===================================================================== *)
(** * The further properties at sample inputs                             *)
(* ===================================================================== *)

Lemma with_alice_users (t : Time) : users (with_alice t) = [alice_row t].
Proof. vm_compute. reflexivity. Qed.

Lemma register_conflict_witness :
  @registerHandler bcrypt72 (json_request impostor) (with_alice 0) =
    (Responded StatusConflict (failure "Email already in use"),
     log_call (SQL "CheckEmailExists" "a@x.com") (with_alice 0)).
Proof.
  apply (@register_conflict bcrypt72 (json_request impostor) impostor
           (alice_row 0) (with_alice 0)); try reflexivity; try discriminate.
  rewrite with_alice_users. apply list_elem_of_here.
Defined.

Lemma register_keeps_accounts_distinct_witness :
  accounts_distinct
    (@registerHandler bcrypt72 (json_request bob) (with_alice 0)).2.
Proof.
  apply (@register_keeps_accounts_distinct bcrypt72).
  split; by_evaluation.
Defined.

Lemma second_registration_conflicts_witness :
  (@registerHandler bcrypt72 (json_request impostor) (with_alice 0)).1 =
    Responded StatusConflict (failure "Email already in use") ∧
  users (@registerHandler bcrypt72 (json_request impostor) (with_alice 0)).2 =
    users (with_alice 0).
Proof.
  apply (@second_registration_conflicts bcrypt72 (json_request alice)
           (json_request impostor) alice impostor registered (boot 0)
           (with_alice 0));
    first [discriminate | reflexivity | vm_compute; reflexivity].
Defined.

Lemma login_reply_consistent_witness :
  ∃ tok summary,
    Token_ (reply_payload (alice_login 0).1) = [Tok tok] ∧
    User_ (reply_payload (alice_login 0).1) = Some summary ∧
    jws_alg tok = "HS256" ∧ jws_sig tok = HMACOf "HS256" "secret" ∧
    jws_claims tok !! "user_id" = Some (JNumber (ur_ID summary)) ∧
    jws_claims tok !! "email" = Some (JString (ur_Email summary)) ∧
    dom (jws_claims tok) = {["user_id"; "email"; "exp"]}.
Proof.
  apply (@login_reply_consistent "secret" bcrypt72 (json_request alice)
           (with_alice 0) (alice_login 0).2).
  vm_compute. reflexivity.
Defined.

Lemma login_prints_password_witness :
  stdout (@loginHandler "secret" bcrypt72 (json_request impostor)
            (with_alice 0)).2 =
    stdout (with_alice 0) ++
    ["Stored password hash: " +:+ "$2a$10$pw";
     "Provided password: " +:+ "other"].
Proof.
  apply (@login_prints_password "secret" bcrypt72 (json_request impostor)
           impostor (alice_row 0) (with_alice 0));
    first [discriminate | reflexivity | vm_compute; reflexivity].
Defined.




Lemma generateID_collision_witness :
  map (entropy (boot 0)) (seq (entropy_pos (boot 0)) 16) =
    map (entropy (boot 7)) (seq (entropy_pos (boot 7)) 16).
Proof.
  apply (generateID_collision (boot 0) (boot 7)
           "000102030405060708090a0b0c0d0e0f");
    vm_compute; reflexivity.
Defined.


Lemma upload_without_directory_witness :
  (uploadPhotoHandler sunset no_directories).1 =
    Responded StatusInternalServerError
      (failure "Failed to create destination file") ∧
  fs (uploadPhotoHandler sunset no_directories).2 = fs no_directories.
Proof.
  apply (upload_without_directory sunset sunset_form sunset_part
           no_directories).
  - reflexivity.
  - by_evaluation.
  - reflexivity.
  - vm_compute. reflexivity.
  - vm_compute. reflexivity.
Defined.

Lemma listing_sorted_regular_files_witness :
  let r := vars_request "category" "photography" in
  ∃ ps,
    getPhotosByCategoryHandler r with_sunset.2 =
      (Responded StatusOK (listing_of ps),
       log_call (FS "ReadDir" (filepath_Join "photos"
                                 (default "" (Vars r !! "category"))))
         with_sunset.2) ∧
    (∀ name, name ∈ map photo_Filename ps ↔
             ∃ f, (<[sunset_name := sunset_file]> ∅ : gmap string File)
                    !! name = Some f ∧ IsDir f = false) ∧
    StronglySorted String.le (map photo_Filename ps) ∧
    NoDup (map photo_Filename ps).
Proof.
  intros r.
  apply (listing_sorted_regular_files r (<[sunset_name := sunset_file]> ∅)
           with_sunset.2).
  - by_evaluation.
  - vm_compute. reflexivity.
Defined.

Lemma listing_without_directory_witness :
  let r := vars_request "category" "photography" in
  getPhotosByCategoryHandler r no_directories =
    (Responded StatusInternalServerError (failure "Failed to read directory"),
     log_call (FS "ReadDir" (filepath_Join "photos"
                               (default "" (Vars r !! "category"))))
       no_directories).
Proof.
  intros r. apply (listing_without_directory r no_directories).
  - by_evaluation.
  - vm_compute. reflexivity.
Defined.


Lemma listed_record_can_be_deleted_witness :
  (deletePhotoHandler (vars_request "id" "000102030405060708090a0b0c0d0e0f")
     with_sunset.2).1 = Responded StatusOK deleted.
Proof.
  apply (listed_record_can_be_deleted
           (vars_request "category" "photography")
           (vars_request "id" "000102030405060708090a0b0c0d0e0f")
           [listed (vars_request "category" "photography") "photography"
              sunset_name sunset_file]
           (listed (vars_request "category" "photography") "photography"
              sunset_name sunset_file)
           with_sunset.2
           (getPhotosByCategoryHandler (vars_request "category" "photography")
              with_sunset.2).2).
  - by_evaluation.
  - vm_compute. reflexivity.
  - apply list_elem_of_here.
  - vm_compute. reflexivity.
Defined.

Lemma upload_then_delete_witness :
  let r := vars_request "id" "000102030405060708090a0b0c0d0e0f" in
  ∃ w2,
    deletePhotoHandler r with_sunset.2 = (Responded StatusOK deleted, w2) ∧
    fs w2 = fs (boot 0) ∧
    (deletePhotoHandler r w2).1 =
      Responded StatusNotFound (failure "Photo not found").
Proof.
  intros r.
  apply (upload_then_delete sunset r sunset_record (boot 0) with_sunset.2).
  - by_evaluation.
  - vm_compute. reflexivity.
  - vm_compute. reflexivity.
  - intros x Hx. exfalso.
    assert (E : scan_order (fs (boot 0)) categories = [])
      by (vm_compute; reflexivity).
    rewrite E in Hx. exact (proj1 (elem_of_nil x) Hx).
Defined.

Lemma listing_after_init_witness :
  ∃ ps w',
    getPhotosByCategoryHandler (vars_request "category" "featured") (boot 0) =
      (Responded StatusOK (listing_of ps), w').
Proof.
  apply (listing_after_init (vars_request "category" "featured") ∅ (boot 0)).
  - reflexivity.
  - by_evaluation.
Defined.
